(** * Profolio: ledger, metrics, snapshots and history export

    A shallow embedding of the portfolio tracker's client class
    [CryptoPortfolio] (browser script) and of the server routes for the
    history export, the latest cost, the transactions and the custom
    tags, with the properties of the ledger, the metrics, the snapshots
    (taking, restoring, deleting, comparing, loading), the table and the
    chart, the snapshot gate and the daily CSV export.

    JavaScript numbers are IEEE-754 binary64 values.  The client code is
    embedded once, over an interface [JsNumber] of the arithmetic and the
    comparisons it uses, and read at two instances: [float] (Rocq's
    primitive binary64 floats, the arithmetic the program really runs) and
    [Qc] (exact rationals, the arithmetic with rounding taken away).
    Instants ([Date] time values) are integers: milliseconds since the
    epoch. *)

From Stdlib Require Import Floats ZArith QArith Qcanon Ascii DecimalString Lia.
From stdpp Require Import gmap strings list fin_maps sorting.

Local Open Scope Z_scope.

(** ** Numbers *)

(** The operations of JavaScript numbers that the program uses. *)
Class JsNumber (N : Type) := {
  num_zero : N;                 (* the literal 0 *)
  num_hundred : N;              (* the literal 100 *)
  num_add : N → N → N;          (* x + y *)
  num_sub : N → N → N;          (* x - y *)
  num_mul : N → N → N;          (* x * y *)
  num_div : N → N → N;          (* x / y *)
  num_ltb : N → N → bool;       (* x < y *)
  num_leb : N → N → bool;       (* x <= y *)
  num_eqb : N → N → bool;       (* x === y *)
  num_toFixed2 : N → option string  (* x.toFixed(2) *)
}.

Declare Scope num_scope.
Delimit Scope num_scope with num.
Infix "+" := num_add : num_scope.
Infix "-" := num_sub : num_scope.
Infix "*" := num_mul : num_scope.
Infix "/" := num_div : num_scope.
Infix "<?" := num_ltb : num_scope.
Infix "<=?" := num_leb : num_scope.
Infix "=?" := num_eqb : num_scope.

(** [x > y] and [x >= y] are [y < x] and [y <= x] with the operands
    swapped (both are false when an operand is NaN). *)
Definition num_gtb {N} `{JsNumber N} (x y : N) : bool := num_ltb y x.
Definition num_geb {N} `{JsNumber N} (x y : N) : bool := num_leb y x.
Infix ">?" := num_gtb : num_scope.
Infix ">=?" := num_geb : num_scope.

(** A number is falsy when it is [0], [-0] or [NaN]: exactly when it is
    neither below nor above zero. *)
Definition truthy {N} `{JsNumber N} (x : N) : bool :=
  (num_ltb x num_zero || num_ltb num_zero x)%bool.

(** [x || d] on numbers. *)
Definition orElse {N} `{JsNumber N} (x d : N) : N :=
  if truthy x then x else d.

(** The comparison facts the proofs rely on; they hold for binary64
    (NaN included) and for exact rationals. *)
Class JsNumberLaws (N : Type) `{JsNumber N} := {
  num_leb_ltb_eqb : ∀ x y : N, num_leb x y = (num_ltb x y || num_eqb x y)%bool;
  num_ltb_asym : ∀ x y : N, num_ltb x y = true → num_ltb y x = false;
  num_eqb_not_ltb : ∀ x y : N, num_eqb x y = true → num_ltb y x = false;
  num_eqb_sym : ∀ x y : N, num_eqb x y = num_eqb y x
}.

(** *** Fixed-point text

    [Number.prototype.toFixed(2)]: the sign, then the integer [n] for which
    [n / 100] is nearest to the magnitude (the larger [n] on a tie), written
    with two fraction digits. *)

Definition pad2 (k : Z) : string :=
  let s := NilZero.string_of_uint (N.to_uint (Z.to_N k)) in
  if k <? 10 then String.append "0" s else s.

(** [hundredths] is the rounded magnitude times 100. *)
Definition fixed2_text (negative : bool) (hundredths : Z) : string :=
  String.append (if negative then "-" else "")
    (String.append (NilZero.string_of_uint (N.to_uint (Z.to_N (hundredths / 100))))
       (String.append "." (pad2 (hundredths mod 100)))).

(** Nearest integer to [num / den] for [num >= 0] and [den > 0], ties up. *)
Definition round_half_up (num den : Z) : Z := (2 * num + den) / (2 * den).

(** Binary64: the value of a finite float is [m * 2^e].  For NaN, the
    infinities and magnitudes of [10^21] and above [toFixed] answers
    [Number::toString]; the exponent form of the last case is outside this
    model ([None]). *)
Definition float_toFixed2 (x : float) : option string :=
  match Prim2SF x with
  | S754_zero _ => Some (fixed2_text false 0)
  | S754_finite s m e =>
      let h := if 0 <=? e
               then Z.pos m * 2 ^ e * 100
               else round_half_up (Z.pos m * 100) (2 ^ (- e)) in
      if 10 ^ 23 <=? h then None else Some (fixed2_text s h)
  | S754_infinity s => Some (if s then "-Infinity" else "Infinity")%string
  | S754_nan => Some "NaN"%string
  end.

#[export] Instance float_JsNumber : JsNumber float := {
  num_zero := 0%float;
  num_hundred := 100%float;
  num_add := PrimFloat.add;
  num_sub := PrimFloat.sub;
  num_mul := PrimFloat.mul;
  num_div := PrimFloat.div;
  num_ltb := PrimFloat.ltb;
  num_leb := PrimFloat.leb;
  num_eqb := PrimFloat.eqb;
  num_toFixed2 := float_toFixed2
}.

(** Exact rationals: the same program with no rounding, no infinities and
    no NaN (a division by zero, which the ledger never performs on positive
    amounts, yields 0 here). *)
Definition Qc_ltb (x y : Qc) : bool :=
  match Qccompare x y with Lt => true | _ => false end.
Definition Qc_leb (x y : Qc) : bool :=
  match Qccompare x y with Gt => false | _ => true end.
Definition Qc_eqb (x y : Qc) : bool :=
  match Qccompare x y with Eq => true | _ => false end.
Definition Qc_toFixed2 (x : Qc) : option string :=
  let n := Qnum (this x) in
  let d := Z.pos (Qden (this x)) in
  let h := round_half_up (Z.abs n * 100) d in
  if 10 ^ 23 <=? h then None else Some (fixed2_text (n <? 0) h).

#[export] Instance Qc_JsNumber : JsNumber Qc := {
  num_zero := Q2Qc 0;
  num_hundred := Q2Qc 100;
  num_add := Qcplus;
  num_sub := Qcminus;
  num_mul := Qcmult;
  num_div := Qcdiv;
  num_ltb := Qc_ltb;
  num_leb := Qc_leb;
  num_eqb := Qc_eqb;
  num_toFixed2 := Qc_toFixed2
}.

(** ** Data model *)

(** One entry of [this.portfolio]. *)
Record Holding (N : Type) := mkHolding {
  coinId : string;        (* id *)
  symbol : string;
  amount : N;
  purchasePrice : N;
  totalCost : N;
  averagePrice : N;
  note : string
}.
Arguments mkHolding {N}.
Arguments coinId {N}.
Arguments symbol {N}.
Arguments amount {N}.
Arguments purchasePrice {N}.
Arguments totalCost {N}.
Arguments averagePrice {N}.
Arguments note {N}.

(** One entry of [this.cryptoData], keyed by symbol. *)
Record PriceInfo (N : Type) := mkPriceInfo {
  price : N;
  change24h : N
}.
Arguments mkPriceInfo {N}.
Arguments price {N}.
Arguments change24h {N}.

Inductive TxType := Buy | Sell.

(** The record [saveTransaction] posts; [tx_id] and [tx_timestamp] are the
    clock reading at the call. *)
Record Transaction (N : Type) := mkTransaction {
  tx_id : Z;
  tx_timestamp : Z;
  tx_symbol : string;
  tx_amount : N;
  tx_purchasePrice : N;
  tx_totalCost : N;
  tx_note : string;
  tx_type : TxType
}.
Arguments mkTransaction {N}.
Arguments tx_id {N}.
Arguments tx_timestamp {N}.
Arguments tx_symbol {N}.
Arguments tx_amount {N}.
Arguments tx_purchasePrice {N}.
Arguments tx_totalCost {N}.
Arguments tx_note {N}.
Arguments tx_type {N}.

(** What a profit-and-loss percentage slot can hold: a number, or the
    string ['N/A']. *)
Inductive PnlPercent (N : Type) :=
  | PnlNumber (x : N)
  | PnlNA.
Arguments PnlNumber {N}.
Arguments PnlNA {N}.

Definition isNumber {N} (p : PnlPercent N) : bool :=
  match p with PnlNumber _ => true | PnlNA => false end.

(** A snapshot's description: a given text, or the text
    [`Total Cost Set to ${formatPrice(v)}`]. *)
Inductive Description (N : Type) :=
  | DescText (s : string)
  | DescTotalCostSet (v : N).
Arguments DescText {N}.
Arguments DescTotalCostSet {N}.

(** A project of [/api/projects], kept as its JSON text. *)
Definition Project := string.

(** A snapshot; [snap_timestamp] is the time value of its ISO timestamp
    and [snap_id] the clock reading whose decimal text is the id. *)
Record Snapshot (N : Type) := mkSnapshot {
  snap_id : Z;
  snap_timestamp : Z;
  snap_description : Description N;
  snap_portfolio : list (Holding N);
  snap_cryptoData : gmap string (PriceInfo N);
  snap_projects : option (list Project);
  snap_totalValue : N;
  snap_totalCost : N;
  snap_totalPnl : N;
  snap_totalPnlPercent : PnlPercent N
}.
Arguments mkSnapshot {N}.
Arguments snap_id {N}.
Arguments snap_timestamp {N}.
Arguments snap_description {N}.
Arguments snap_portfolio {N}.
Arguments snap_cryptoData {N}.
Arguments snap_projects {N}.
Arguments snap_totalValue {N}.
Arguments snap_totalCost {N}.
Arguments snap_totalPnl {N}.
Arguments snap_totalPnlPercent {N}.

(** One entry of [this.portfolioHistory]. *)
Record HistoryEntry (N : Type) := mkHistoryEntry {
  he_timestamp : Z;
  he_totalValue : N;
  he_totalCost : N;
  he_totalPnl : N;
  he_totalPnlPercent : PnlPercent N;
  he_portfolio : list (Holding N)
}.
Arguments mkHistoryEntry {N}.
Arguments he_timestamp {N}.
Arguments he_totalValue {N}.
Arguments he_totalCost {N}.
Arguments he_totalPnl {N}.
Arguments he_totalPnlPercent {N}.
Arguments he_portfolio {N}.

Inductive SortColumn :=
  | ColSymbol | ColAmount | ColCurrentPrice | ColPurchasePrice
  | ColCurrentValue | ColValuePercent | ColPnl | ColPnlPercent
  | ColOther.                     (* any other text: the [default] case *)

Inductive SortOrder := Asc | Desc.  (* ['asc'], or anything else *)

(** The fields of a [CryptoPortfolio] instance that the ledger, the metrics
    and the snapshots read or write.  [portfolioTotalCost] is [None] when
    the property is [undefined]. *)
Record State (N : Type) := mkState {
  portfolio : list (Holding N);
  portfolioTotalCost : option N;
  portfolioHistory : list (HistoryEntry N);
  portfolioSnapshots : list (Snapshot N);
  cryptoData : gmap string (PriceInfo N);
  sortColumn : option SortColumn;
  sortOrder : SortOrder
}.
Arguments mkState {N}.
Arguments portfolio {N}.
Arguments portfolioTotalCost {N}.
Arguments portfolioHistory {N}.
Arguments portfolioSnapshots {N}.
Arguments cryptoData {N}.
Arguments sortColumn {N}.
Arguments sortOrder {N}.

Definition set_portfolio {N} (p : list (Holding N)) (st : State N) : State N :=
  mkState p (portfolioTotalCost st) (portfolioHistory st)
    (portfolioSnapshots st) (cryptoData st) (sortColumn st) (sortOrder st).
Definition set_portfolioTotalCost {N} (c : option N) (st : State N) : State N :=
  mkState (portfolio st) c (portfolioHistory st)
    (portfolioSnapshots st) (cryptoData st) (sortColumn st) (sortOrder st).
Definition set_portfolioHistory {N} (h : list (HistoryEntry N)) (st : State N) : State N :=
  mkState (portfolio st) (portfolioTotalCost st) h
    (portfolioSnapshots st) (cryptoData st) (sortColumn st) (sortOrder st).
Definition set_portfolioSnapshots {N} (s : list (Snapshot N)) (st : State N) : State N :=
  mkState (portfolio st) (portfolioTotalCost st) (portfolioHistory st)
    s (cryptoData st) (sortColumn st) (sortOrder st).
Definition set_cryptoData {N} (d : gmap string (PriceInfo N)) (st : State N) : State N :=
  mkState (portfolio st) (portfolioTotalCost st) (portfolioHistory st)
    (portfolioSnapshots st) d (sortColumn st) (sortOrder st).
Definition set_sort {N} (c : SortColumn) (o : SortOrder) (st : State N) : State N :=
  mkState (portfolio st) (portfolioTotalCost st) (portfolioHistory st)
    (portfolioSnapshots st) (cryptoData st) (Some c) o.

(** The state the constructor builds. *)
Definition initialState {N} : State N :=
  mkState [] None [] [] ∅ None Asc.

(** The texts of [showMessage]. *)
Inductive Message (N : Type) :=
  | MsgFillRequired               (* Please fill in all required fields. *)
  | MsgAmountOrPrice              (* Amount must be positive and purchase price cannot be negative. *)
  | MsgAdded (sym : string)       (* ... added to portfolio successfully! *)
  | MsgRemoved (sym nt : string)  (* ... removed from portfolio. *)
  | MsgCleared                    (* Portfolio cleared successfully. *)
  | MsgSnapshotEmpty              (* Cannot create snapshot: Portfolio is empty *)
  | MsgSnapshotCreated (d : Description N)
  | MsgSetCostEmpty               (* Cannot set total cost: Portfolio is empty *)
  | MsgCostNegative               (* Total cost cannot be negative *)
  | MsgCostSet (v : N)            (* Total cost set to ... and snapshot saved *)
  | MsgResetCostEmpty             (* Cannot reset total cost: Portfolio is empty *)
  | MsgCostReset.                 (* Total cost reset to individual coin values and snapshot saved *)
Arguments MsgFillRequired {N}.
Arguments MsgAmountOrPrice {N}.
Arguments MsgAdded {N}.
Arguments MsgRemoved {N}.
Arguments MsgCleared {N}.
Arguments MsgSnapshotEmpty {N}.
Arguments MsgSnapshotCreated {N}.
Arguments MsgSetCostEmpty {N}.
Arguments MsgCostNegative {N}.
Arguments MsgCostSet {N}.
Arguments MsgResetCostEmpty {N}.
Arguments MsgCostReset {N}.

Inductive MessageKind := KindError | KindSuccess.

(** What a handler sends out of the instance: a message on the page, and
    the requests to the server (a transaction, the portfolio, the newest
    snapshot). *)
Inductive Effect (N : Type) :=
  | ShowMessage (m : Message N) (k : MessageKind)
  | SaveTransaction (t : Transaction N)
  | SavePortfolio (p : list (Holding N))
  | SaveSnapshot (s : Snapshot N).
Arguments ShowMessage {N}.
Arguments SaveTransaction {N}.
Arguments SavePortfolio {N}.
Arguments SaveSnapshot {N}.

(** ** The client: [CryptoPortfolio]

    Each handler is a function from the state to the new state and the
    effects it sends out.  A handler reads the clock once, as [now].  What
    a handler only draws ([renderPortfolio], [updateCharts], [clearForm])
    is left out; the price request that [addCoin] starts at its end
    completes later and is a call of its own ([loadCryptoPrices]). *)

Section Client.
Context {N : Type} `{JsNumber N}.
Local Open Scope num_scope.
Local Open Scope bool_scope.

Implicit Types (st : State N) (coin : Holding N) (now : Z).

(** *** Metrics *)

(** [this.cryptoData[symbol]?.price || 0] *)
Definition currentPrice (data : gmap string (PriceInfo N)) (sym : string) : N :=
  match data !! sym with
  | Some info => orElse (price info) num_zero
  | None => num_zero
  end.

Definition calculateTotalValue st : N :=
  foldl (λ total coin, total + amount coin * currentPrice (cryptoData st) (symbol coin))
    num_zero (portfolio st).

(** [this.portfolio.reduce((total, coin) => total + coin.totalCost, 0)] *)
Definition sumTotalCost (p : list (Holding N)) : N :=
  foldl (λ total coin, total + totalCost coin) num_zero p.

Definition calculateTotalCost st : N :=
  match portfolioTotalCost st with
  | Some c => c
  | None => sumTotalCost (portfolio st)
  end.

Definition calculateTotalPnl st : N :=
  calculateTotalValue st - calculateTotalCost st.

Definition calculateTotalPnlPercent st : N :=
  let cost := calculateTotalCost st in
  if cost >? num_zero then (calculateTotalPnl st / cost) * num_hundred else num_zero.

Definition calculatePnlPercent (currentValue cost : N) : PnlPercent N :=
  if cost >? num_zero
  then PnlNumber (((currentValue - cost) / cost) * num_hundred)
  else PnlNA.

(** *** Display of a percentage cell ([renderPortfolio], [renderSummaryRow]) *)

Inductive PnlClass := Neutral | Positive | Negative.

Definition pnlPercentCell (p : PnlPercent N) : PnlClass * option string :=
  match p with
  | PnlNA => (Neutral, Some "N/A"%string)
  | PnlNumber x =>
      (if x >=? num_zero then Positive else Negative,
       (λ digits, String.append (if x >=? num_zero then "+" else "")
                    (String.append digits "%")) <$> num_toFixed2 x)
  end.

(** *** Sorting ([sortPortfolio]) *)

(** The value the [pnlPercent] column sorts by. *)
Definition pnlPercentSortKey (p : PnlPercent N) : N :=
  match p with
  | PnlNA => num_zero
  | PnlNumber x => x
  end.

(** [aValue] (or [bValue]) of a numeric column; the [valuePercent] column
    divides by the total value of the portfolio being sorted. *)
Definition sortValue st (column : SortColumn) coin : N :=
  let value := amount coin * currentPrice (cryptoData st) (symbol coin) in
  match column with
  | ColAmount => amount coin
  | ColCurrentPrice => currentPrice (cryptoData st) (symbol coin)
  | ColPurchasePrice => averagePrice coin
  | ColCurrentValue => value
  | ColValuePercent =>
      let totalValue := calculateTotalValue st in
      if totalValue >? num_zero then (value / totalValue) * num_hundred else num_zero
  | ColPnl => value - totalCost coin
  | ColPnlPercent => pnlPercentSortKey (calculatePnlPercent value (totalCost coin))
  | ColSymbol | ColOther => num_zero
  end.

(** Whether the comparator's result for [(a, b)] is positive, that is
    whether [a] is to be placed after [b].  [localeCompare] is read as the
    order of [String.compare]. *)
Definition comesAfter st (column : SortColumn) (order : SortOrder)
    (a b : Holding N) : bool :=
  match column with
  | ColOther => false
  | ColSymbol =>
      match order with
      | Asc => String.ltb (symbol b) (symbol a)
      | Desc => String.ltb (symbol a) (symbol b)
      end
  | _ =>
      match order with
      | Asc => (sortValue st column a - sortValue st column b) >? num_zero
      | Desc => (sortValue st column b - sortValue st column a) >? num_zero
      end
  end.

(** [Array.prototype.sort] is stable; with a comparator that orders the
    elements consistently every stable sort returns the same array, here
    computed by insertion. *)
Fixpoint insertBy {A} (after : A → A → bool) (x : A) (l : list A) : list A :=
  match l with
  | [] => [x]
  | y :: l' => if after x y then y :: insertBy after x l' else x :: l
  end.

Definition stableSort {A} (after : A → A → bool) (l : list A) : list A :=
  foldr (insertBy after) [] l.

Definition sortPortfolio (column : SortColumn) (order : SortOrder) st : State N :=
  set_sort column order
    (set_portfolio (stableSort (comesAfter st column order) (portfolio st)) st).

(** *** Session history ([savePortfolioHistory], [updateTotalValue]) *)

(** [l.slice(-n)] *)
Definition sliceLast {A} (n : nat) (l : list A) : list A :=
  drop (length l - n)%nat l.

Definition savePortfolioHistory now (totalValue totalCost' totalPnl : N)
    (totalPnlPercent : PnlPercent N) st : State N :=
  let historyEntry :=
    mkHistoryEntry now totalValue totalCost' totalPnl totalPnlPercent (portfolio st) in
  let pushed := portfolioHistory st ++ [historyEntry] in
  set_portfolioHistory
    (if (100 <? length pushed)%nat then sliceLast 100 pushed else pushed) st.

Definition updateTotalValue now st : State N :=
  let totalValue := calculateTotalValue st in
  let cost := calculateTotalCost st in
  let totalPnl := totalValue - cost in
  let totalPnlPercent := calculatePnlPercent totalValue cost in
  savePortfolioHistory now totalValue cost totalPnl totalPnlPercent st.

Definition ensureHistoryEntry now st : State N :=
  match portfolio st, portfolioHistory st with
  | _ :: _, [] =>
      savePortfolioHistory now (calculateTotalValue st) (calculateTotalCost st)
        (calculateTotalPnl st) (PnlNumber (calculateTotalPnlPercent st)) st
  | _, _ => st
  end.

(** *** Ledger ([addCoin], [removeCoin], [clearPortfolio]) *)

(** [coin.symbol === symbol && coin.note === note] *)
Definition sameHolding (sym nt : string) coin : bool :=
  String.eqb (symbol coin) sym && String.eqb (note coin) nt.

(** The entry pushed for a new [(symbol, note)] pair. *)
Definition newHolding (sym : string) (amt pp : N) (nt : string) : Holding N :=
  mkHolding
    (String.append sym (String.append "_" (if String.eqb nt "" then "default" else nt)))
    sym amt pp (amt * pp) pp nt.

(** The assignments made to [existingCoin]. *)
Definition mergeHolding (amt pp : N) (existingCoin : Holding N) : Holding N :=
  let amount' := amount existingCoin + amt in
  let totalCost' := totalCost existingCoin + amt * pp in
  let averagePrice' := totalCost' / amount' in
  mkHolding (coinId existingCoin) (symbol existingCoin)
    amount' averagePrice' totalCost' averagePrice' (note existingCoin).

(** In-place update of the first element that satisfies [p] (the object
    that [Array.prototype.find] returned). *)
Fixpoint updateFirst {A} (p : A → bool) (f : A → A) (l : list A) : list A :=
  match l with
  | [] => []
  | x :: l' => if p x then f x :: l' else x :: updateFirst p f l'
  end.

Definition addOrMerge (sym : string) (amt pp : N) (nt : string)
    (p : list (Holding N)) : list (Holding N) :=
  match List.find (sameHolding sym nt) p with
  | Some _ => updateFirst (sameHolding sym nt) (mergeHolding amt pp) p
  | None => p ++ [newHolding sym amt pp nt]
  end.

(** [sym], [amt], [pp] and [nt] are the form's values as the handler reads
    them: the symbol in upper case, the two numbers through [parseFloat],
    the note trimmed.  ([purchasePrice] is a number, so the three tests
    of it against [undefined], [null] and [''] never hold.) *)
Definition addCoin (sym : string) (amt pp : N) (nt : string) now st
    : State N * list (Effect N) :=
  if String.eqb sym "" || negb (truthy amt) then
    (st, [ShowMessage MsgFillRequired KindError])
  else if (amt <=? num_zero) || (pp <? num_zero) then
    (st, [ShowMessage MsgAmountOrPrice KindError])
  else
    let st1 := set_portfolio (addOrMerge sym amt pp nt (portfolio st)) st in
    let transaction := mkTransaction now now sym amt pp (amt * pp) nt Buy in
    let st2 := sortPortfolio ColCurrentValue Desc st1 in
    (updateTotalValue now st2,
     [SaveTransaction transaction; SavePortfolio (portfolio st1);
      ShowMessage (MsgAdded sym) KindSuccess]).

(** [this.cryptoData[symbol]?.price || coinToRemove.averagePrice] *)
Definition sellPrice (data : gmap string (PriceInfo N)) (sym : string)
    (coinToRemove : Holding N) : N :=
  match data !! sym with
  | Some info => orElse (price info) (averagePrice coinToRemove)
  | None => averagePrice coinToRemove
  end.

Definition removeCoin (sym nt : string) now st : State N * list (Effect N) :=
  let sold :=
    match List.find (sameHolding sym nt) (portfolio st) with
    | Some coinToRemove =>
        let currentPrice' := sellPrice (cryptoData st) sym coinToRemove in
        [SaveTransaction
           (mkTransaction now now sym (amount coinToRemove) currentPrice'
              (amount coinToRemove * currentPrice') nt Sell)]
    | None => []
    end in
  let st1 :=
    set_portfolio
      (List.filter (λ coin, negb (sameHolding sym nt coin)) (portfolio st)) st in
  let st2 := sortPortfolio ColCurrentValue Desc st1 in
  (updateTotalValue now st2,
   sold ++ [SavePortfolio (portfolio st1); ShowMessage (MsgRemoved sym nt) KindSuccess]).

(** [confirmed] is the answer to the [confirm] dialog. *)
Definition clearPortfolio (confirmed : bool) now st : State N * list (Effect N) :=
  if confirmed then
    let st1 := set_portfolio [] st in
    let st2 := sortPortfolio ColCurrentValue Desc st1 in
    (updateTotalValue now st2,
     [SavePortfolio []; ShowMessage MsgCleared KindSuccess])
  else (st, []).

(** The continuation of [loadCryptoPrices] once the prices have arrived;
    [fetched] is the table built from the response, [None] when no known
    coin id is found or the request fails.  With no holding the method
    returns before any request. *)
Definition loadCryptoPrices (fetched : option (gmap string (PriceInfo N))) now st
    : State N :=
  match portfolio st, fetched with
  | _ :: _, Some data =>
      updateTotalValue now (sortPortfolio ColCurrentValue Desc (set_cryptoData data st))
  | _, _ => st
  end.

(** *** Snapshots ([createSnapshot], [setTotalCost], [resetTotalCost]) *)

(** [unshift] the snapshot, then keep the first 50. *)
Definition pushSnapshot (snapshot : Snapshot N) st : State N :=
  let unshifted := snapshot :: portfolioSnapshots st in
  set_portfolioSnapshots
    (if (50 <? length unshifted)%nat then take 50 unshifted else unshifted) st.

(** [projects] is what [/api/projects] answered ([[]] when it did not). *)
Definition createSnapshot (description : Description N) (projects : list Project)
    now st : State N * list (Effect N) :=
  match portfolio st with
  | [] => (st, [ShowMessage MsgSnapshotEmpty KindError])
  | _ :: _ =>
      let snapshot :=
        mkSnapshot now now description (portfolio st) (cryptoData st) (Some projects)
          (calculateTotalValue st) (calculateTotalCost st) (calculateTotalPnl st)
          (PnlNumber (calculateTotalPnlPercent st)) in
      (pushSnapshot snapshot st,
       [SaveSnapshot snapshot; ShowMessage (MsgSnapshotCreated description) KindSuccess])
  end.

Definition setTotalCost (newTotalCost : N) now st : State N * list (Effect N) :=
  match portfolio st with
  | [] => (st, [ShowMessage MsgSetCostEmpty KindError])
  | _ :: _ =>
      if newTotalCost <? num_zero then
        (st, [ShowMessage MsgCostNegative KindError])
      else
        let st1 := set_portfolioTotalCost (Some newTotalCost) st in
        let snapshot :=
          mkSnapshot now now (DescTotalCostSet newTotalCost) (portfolio st1)
            (cryptoData st1) None
            (calculateTotalValue st1) newTotalCost
            (calculateTotalValue st1 - newTotalCost)
            (PnlNumber
               (if newTotalCost >? num_zero
                then ((calculateTotalValue st1 - newTotalCost) / newTotalCost) * num_hundred
                else num_zero)) in
        let st2 := pushSnapshot snapshot st1 in
        (updateTotalValue now st2,
         [SaveSnapshot snapshot; ShowMessage (MsgCostSet newTotalCost) KindSuccess])
  end.

Definition resetTotalCost now st : State N * list (Effect N) :=
  match portfolio st with
  | [] => (st, [ShowMessage MsgResetCostEmpty KindError])
  | _ :: _ =>
      let st1 := set_portfolioTotalCost None st in
      let snapshot :=
        mkSnapshot now now (DescText "Total Cost Reset to Individual Coin Values")
          (portfolio st1) (cryptoData st1) None
          (calculateTotalValue st1) (sumTotalCost (portfolio st1))
          (calculateTotalPnl st1) (PnlNumber (calculateTotalPnlPercent st1)) in
      let st2 := pushSnapshot snapshot st1 in
      (updateTotalValue now st2,
       [SaveSnapshot snapshot; ShowMessage MsgCostReset KindSuccess])
  end.

(** *** The gate of the automatic snapshot ([shouldCreateAutoSnapshot]) *)

Definition oneHourMs : Z := 60 * 60 * 1000.

(** The callback of [snapshots.reduce]. *)
Definition laterSnapshot (latest current : Snapshot N) : Snapshot N :=
  if (snap_timestamp latest <? snap_timestamp current)%Z then current else latest.

(** [response] is the array [/api/snapshots] answered, [None] when the
    request fails or the answer is not [ok]. *)
Definition shouldCreateAutoSnapshot (response : option (list (Snapshot N))) now : bool :=
  match response with
  | None => true
  | Some [] => true
  | Some (first :: rest) =>
      let latestSnapshot := foldl laterSnapshot first rest in
      let lastSnapshotTime := snap_timestamp latestSnapshot in
      (oneHourMs <? now - lastSnapshotTime)%Z
  end.

(** The callback of the timer that [init] sets, when the ledger has
    holdings, for five seconds after the page has loaded. *)
Definition autoSnapshot (response : option (list (Snapshot N)))
    (projects : list Project) now st : State N * list (Effect N) :=
  if shouldCreateAutoSnapshot response now
  then createSnapshot (DescText "Page Refresh") projects now st
  else (st, []).

(** *** Sessions: a sequence of handler calls *)

Inductive Op :=
  | OpAddCoin (sym : string) (amt pp : N) (nt : string)
  | OpRemoveCoin (sym nt : string)
  | OpClearPortfolio (confirmed : bool)
  | OpSortPortfolio (column : SortColumn) (order : SortOrder)
  | OpLoadCryptoPrices (fetched : option (gmap string (PriceInfo N)))
  | OpUpdateTotalValue
  | OpEnsureHistoryEntry
  | OpCreateSnapshot (description : Description N) (projects : list Project)
  | OpAutoSnapshot (response : option (list (Snapshot N))) (projects : list Project)
  | OpSetTotalCost (newTotalCost : N)
  | OpResetTotalCost.

Definition step now (op : Op) st : State N * list (Effect N) :=
  match op with
  | OpAddCoin sym amt pp nt => addCoin sym amt pp nt now st
  | OpRemoveCoin sym nt => removeCoin sym nt now st
  | OpClearPortfolio confirmed => clearPortfolio confirmed now st
  | OpSortPortfolio column order => (sortPortfolio column order st, [])
  | OpLoadCryptoPrices fetched => (loadCryptoPrices fetched now st, [])
  | OpUpdateTotalValue => (updateTotalValue now st, [])
  | OpEnsureHistoryEntry => (ensureHistoryEntry now st, [])
  | OpCreateSnapshot description projects => createSnapshot description projects now st
  | OpAutoSnapshot response projects => autoSnapshot response projects now st
  | OpSetTotalCost newTotalCost => setTotalCost newTotalCost now st
  | OpResetTotalCost => resetTotalCost now st
  end.

(** The state after the calls of [ops], each at its own instant. *)
Definition run (ops : list (Z * Op)) st : State N :=
  foldl (λ st' '(now, op), (step now op st').1) st ops.

End Client.

Arguments Op : clear implicits.

(** ** The server: [GET /api/export-history] *)

Module Server.

(** *** Dates

    The calendar of [Date]: proleptic Gregorian, in UTC, on time values in
    milliseconds. *)

Definition msPerDay : Z := 86400000.

(** Year, month (1 to 12) and day of the month of a day number (days since
    1970-01-01). *)
Definition civilFromDays (z : Z) : Z * Z * Z :=
  let z := z + 719468 in
  let era := z / 146097 in
  let doe := z - era * 146097 in
  let yoe := (doe - doe / 1460 + doe / 36524 - doe / 146096) / 365 in
  let doy := doe - (365 * yoe + yoe / 4 - yoe / 100) in
  let mp := (5 * doy + 2) / 153 in
  let d := doy - (153 * mp + 2) / 5 + 1 in
  let m := if mp <? 10 then mp + 3 else mp - 9 in
  (yoe + era * 400 + (if m <=? 2 then 1 else 0), m, d).

(** The day number of a calendar date. *)
Definition daysFromCivil (y m d : Z) : Z :=
  let y := if m <=? 2 then y - 1 else y in
  let era := y / 400 in
  let yoe := y - era * 400 in
  let doy := (153 * (if 2 <? m then m - 3 else m + 9) + 2) / 5 + d - 1 in
  let doe := yoe * 365 + yoe / 4 - yoe / 100 + doy in
  era * 146097 + doe - 719468.

(** The time value of the UTC instant [y-m-dTh:min:00.000Z]; with
    [h = min = 0] it is the value of [new Date('y-m-d')]. *)
Definition utcTime (y m d h min : Z) : Z :=
  daysFromCivil y m d * msPerDay + h * 3600000 + min * 60000.

(** [k] written with at least [width] digits. *)
Fixpoint padDigits (width : nat) (k : Z) : string :=
  match width with
  | O => if k =? 0 then "" else NilZero.string_of_uint (N.to_uint (Z.to_N k))
  | S w => String.append (padDigits w (k / 10))
             (NilZero.string_of_uint (N.to_uint (Z.to_N (k mod 10))))
  end.

(** [new Date(t).toISOString().split('T')[0]]: the UTC date, with a signed
    six-digit year outside 0000 to 9999. *)
Definition isoDate (t : Z) : string :=
  let '(y, m, d) := civilFromDays (t / msPerDay) in
  let year :=
    if (0 <=? y) && (y <=? 9999) then padDigits 4 y
    else String.append (if y <? 0 then "-" else "+") (padDigits 6 (Z.abs y)) in
  String.append year
    (String.append "-" (String.append (padDigits 2 m)
       (String.append "-" (padDigits 2 d)))).

(** [date.setHours(23, 59, 59, 999)]: the last millisecond of the local
    day of [t], where local time is UTC plus [tzOffset] milliseconds. *)
Definition setHoursEndOfDay (tzOffset : Z) (t : Z) : Z :=
  ((t + tzOffset) / msPerDay) * msPerDay + (msPerDay - 1) - tzOffset.

(** *** The route *)

(** The query, with each date given by the time value of
    [new Date(startDate)] and [new Date(endDate)]. *)
Record ExportQuery := mkExportQuery {
  startDate : option Z;
  endDate : option Z
}.

Definition newline : string := String "010"%char "".

(** [dailySnapshots[dateKey] = snapshot]: a new key goes last, a known key
    keeps its place. *)
Fixpoint assign {V} (key : string) (v : V) (obj : list (string * V)) : list (string * V) :=
  match obj with
  | [] => [(key, v)]
  | (k, v') :: obj' =>
      if String.eqb k key then (k, v) :: obj' else (k, v') :: assign key v obj'
  end.

(** [dailySnapshots[dateKey]] *)
Fixpoint property {V} (key : string) (obj : list (string * V)) : option V :=
  match obj with
  | [] => None
  | (k, v) :: obj' => if String.eqb k key then Some v else property key obj'
  end.

(** The body of the [forEach] that keeps the latest snapshot of each day. *)
Definition keepLatest (dailySnapshots : list (string * Snapshot float))
    (snapshot : Snapshot float) : list (string * Snapshot float) :=
  let dateKey := isoDate (snap_timestamp snapshot) in
  match property dateKey dailySnapshots with
  | None => assign dateKey snapshot dailySnapshots
  | Some kept =>
      if snap_timestamp kept <? snap_timestamp snapshot
      then assign dateKey snapshot dailySnapshots
      else dailySnapshots
  end.

(** The callback of [allSnapshots.filter]. *)
Definition inRange (start end' : option Z) (snapshot : Snapshot float) : bool :=
  let snapshotDate := snap_timestamp snapshot in
  if match start with Some s => snapshotDate <? s | None => false end then false
  else if match end' with Some e => e <? snapshotDate | None => false end then false
  else true.

(** The rows [(date, portfolio)] of the export. *)
Definition dailyData (tzOffset : Z) (q : ExportQuery)
    (allSnapshots : list (Snapshot float)) : list (string * float) :=
  let start := startDate q in
  let end' := setHoursEndOfDay tzOffset <$> endDate q in
  let sorted :=
    stableSort (λ a b, snap_timestamp b <? snap_timestamp a) allSnapshots in
  let filteredSnapshots := List.filter (inRange start end') sorted in
  let dailySnapshots := foldl keepLatest [] filteredSnapshots in
  (λ '(date, snapshot), (date, snap_totalValue snapshot)) <$>
    stableSort (λ a b, String.ltb b.1 a.1) dailySnapshots.

Definition csvHeader : string := "date,portfolio".

Definition csvRow (row : string * float) : option string :=
  (λ amount', String.append row.1 (String.append "," amount')) <$>
    float_toFixed2 row.2.

(** The response's file name and content; [None] when an amount is
    outside the modelled range of [toFixed]. *)
Definition exportHistory (tzOffset : Z) (q : ExportQuery)
    (allSnapshots : list (Snapshot float)) : option (string * string) :=
  let rows := dailyData tzOffset q allSnapshots in
  let end' := setHoursEndOfDay tzOffset <$> endDate q in
  let startStr :=
    match startDate q with
    | Some s => isoDate s
    | None => match rows with r :: _ => r.1 | [] => "all" end
    end in
  let endStr :=
    match end' with
    | Some e => isoDate e
    | None => match last rows with Some r => r.1 | None => "all" end
    end in
  csvRows ← mapM csvRow rows;
  Some (String.append "portfolio-history-"
          (String.append startStr (String.append "-to-" (String.append endStr ".csv"))),
        String.concat newline (csvHeader :: csvRows)).

End Server.

(** *** The example of three snapshots over two days *)

Module ExportExample.
Import Server.

(** A stored snapshot with the given timestamp and [totalValue]. *)
Definition snapshotAt (timestamp : Z) (value : float) : Snapshot float :=
  mkSnapshot timestamp timestamp (DescText "Manual Snapshot") [] ∅ None
    value 0%float value (PnlNumber 0%float).

(** 2024-01-01T10:00Z (100), 2024-01-01T22:00Z (120), 2024-01-02T09:00Z (130) *)
Definition snapshots : list (Snapshot float) :=
  [snapshotAt (utcTime 2024 1 1 10 0) 100%float;
   snapshotAt (utcTime 2024 1 1 22 0) 120%float;
   snapshotAt (utcTime 2024 1 2 9 0) 130%float].

(** [?startDate=2024-01-01&endDate=2024-01-02] *)
Definition query : ExportQuery :=
  mkExportQuery (Some (utcTime 2024 1 1 0 0)) (Some (utcTime 2024 1 2 0 0)).

Definition hourMs : Z := 3600000.

End ExportExample.

(** ** The client: stored snapshots, loading and restoring *)

Section ClientSession.
Context {N : Type} `{JsNumber N}.
Local Open Scope num_scope.
Local Open Scope bool_scope.

Implicit Types (st : State N) (coin : Holding N) (now : Z).

(** The texts of [showMessage] in the handlers of the stored snapshots,
    of the import and of the load. *)
Inductive Notice :=
  | NoticeSnapshotNotFound        (* Snapshot not found *)
  | NoticeRestored (d : Description N)  (* Portfolio restored from snapshot "..." *)
  | NoticeSnapshotDeleted         (* Snapshot deleted *)
  | NoticeSnapshotsCleared        (* All snapshots cleared *)
  | NoticeImported                (* Portfolio data imported successfully! *)
  | NoticeInvalidFile             (* Invalid portfolio file format. *)
  | NoticeFileError               (* Error reading portfolio file. Please check the file format. *)
  | NoticeLatestLoaded (d : Description N).  (* Loaded latest snapshot: "..." *)

(** What these handlers send out: an [Effect], or one of the messages
    above. *)
Inductive Output :=
  | Sent (e : Effect N)
  | Notified (n : Notice) (k : MessageKind).

(** [savePortfolioSnapshots]: the list goes to [localStorage] and the
    newest snapshot, when there is one, to the server. *)
Definition savePortfolioSnapshots st : list Output :=
  match portfolioSnapshots st with
  | latestSnapshot :: _ => [Sent (SaveSnapshot latestSnapshot)]
  | [] => []
  end.

(** [this.portfolioSnapshots.find(s => s.id === snapshotId)]; the ids are
    the decimal texts of clock readings. *)
Definition findSnapshot (snapshotId : Z) st : option (Snapshot N) :=
  List.find (λ s, (snap_id s =? snapshotId)%Z) (portfolioSnapshots st).

(** [confirmed] is the answer to the [confirm] dialog (asked only when the
    snapshot is found).  The copies through JSON are read as the values
    themselves. *)
Definition restoreSnapshot (snapshotId : Z) (confirmed : bool) now st
    : State N * list Output :=
  match findSnapshot snapshotId st with
  | None => (st, [Notified NoticeSnapshotNotFound KindError])
  | Some snapshot =>
      if confirmed then
        let st1 :=
          set_cryptoData (snap_cryptoData snapshot)
            (set_portfolio (snap_portfolio snapshot) st) in
        let st2 := sortPortfolio ColCurrentValue Desc st1 in
        (updateTotalValue now st2,
         [Sent (SavePortfolio (portfolio st1));
          Notified (NoticeRestored (snap_description snapshot)) KindSuccess])
      else (st, [])
  end.

Definition deleteSnapshot (snapshotId : Z) (confirmed : bool) st
    : State N * list Output :=
  if confirmed then
    let st1 :=
      set_portfolioSnapshots
        (List.filter (λ s, negb (snap_id s =? snapshotId)%Z) (portfolioSnapshots st))
        st in
    (st1, savePortfolioSnapshots st1 ++ [Notified NoticeSnapshotDeleted KindSuccess])
  else (st, []).

(** The button [clearSnapshots] of the snapshots dialog. *)
Definition clearSnapshots (confirmed : bool) st : State N * list Output :=
  if confirmed then
    let st1 := set_portfolioSnapshots [] st in
    (st1, savePortfolioSnapshots st1 ++ [Notified NoticeSnapshotsCleared KindSuccess])
  else (st, []).

(** What [JSON.parse] makes of the chosen file. *)
Inductive ImportFile :=
  | FileUnreadable                          (* [JSON.parse] throws *)
  | FileWithoutPortfolio                    (* no array under [portfolio] *)
  | FileWithPortfolio (p : list (Holding N)).

(** The [onload] callback of [importData]. *)
Definition importData (file : ImportFile) now st : State N * list Output :=
  match file with
  | FileWithPortfolio p =>
      let st1 := set_portfolio p st in
      (updateTotalValue now st1,
       [Sent (SavePortfolio p); Notified NoticeImported KindSuccess])
  | FileWithoutPortfolio => (st, [Notified NoticeInvalidFile KindError])
  | FileUnreadable => (st, [Notified NoticeFileError KindError])
  end.

(** [response] is the array [/api/portfolio] answered, [None] when the
    request fails or the answer is not [ok]. *)
Definition loadPortfolio (response : option (list (Holding N))) st : State N :=
  set_portfolio (default [] response) st.

(** [response] is the [totalCost] that [/api/latest-totalcost] answered:
    [Some None] for [null], [None] when the request fails. *)
Definition loadLatestTotalCost (response : option (option N)) st : State N :=
  set_portfolioTotalCost
    (match response with
     | Some (Some latest) => Some latest
     | _ => None
     end) st.

(** [snapshot.totalPnlPercent || currentTotalPnlPercent] *)
Definition pnlPercentOrElse (stored : PnlPercent N) (current : N) : PnlPercent N :=
  match stored with
  | PnlNumber x => PnlNumber (orElse x current)
  | PnlNA => PnlNA
  end.

(** [loadLatestSnapshot]: the state, what is sent, and the boolean it
    returns.  [response] is as for the gate of the automatic snapshot. *)
Definition loadLatestSnapshot (response : option (list (Snapshot N))) st
    : State N * list Output * bool :=
  match response with
  | None | Some [] => (st, [], false)
  | Some (first :: rest) =>
      let latestSnapshot := foldl laterSnapshot first rest in
      let st1 :=
        set_cryptoData (snap_cryptoData latestSnapshot)
          (set_portfolio (snap_portfolio latestSnapshot) st) in
      let historyEntry :=
        mkHistoryEntry (snap_timestamp latestSnapshot)
          (orElse (snap_totalValue latestSnapshot) (calculateTotalValue st1))
          (orElse (snap_totalCost latestSnapshot) (calculateTotalCost st1))
          (orElse (snap_totalPnl latestSnapshot) (calculateTotalPnl st1))
          (pnlPercentOrElse (snap_totalPnlPercent latestSnapshot)
             (calculateTotalPnlPercent st1))
          (portfolio st1) in
      (set_portfolioHistory [historyEntry] st1,
       [Sent (SavePortfolio (portfolio st1));
        Notified (NoticeLatestLoaded (snap_description latestSnapshot)) KindSuccess],
       true)
  end.

(** The click on [loadLatestSnapshot]: after a load that succeeded the
    ledger is sorted and the metrics are recomputed. *)
Definition loadLatestSnapshotClicked (response : option (list (Snapshot N))) now st
    : State N * list Output :=
  let '(st1, outputs, loaded) := loadLatestSnapshot response st in
  if loaded
  then (updateTotalValue now (sortPortfolio ColCurrentValue Desc st1), outputs)
  else (st1, outputs).

(** [updateComparisonModal]: the changes of the total value, of the
    aggregate cost, of the profit and of its percentage since the
    snapshot; the last one is [None] (not a number) when the snapshot
    stores the text ['N/A']. *)
Definition updateComparisonModal (snapshot : Snapshot N) st : N * N * N * option N :=
  let valueChange := calculateTotalValue st - snap_totalValue snapshot in
  let costChange := calculateTotalCost st - snap_totalCost snapshot in
  let pnlChange := calculateTotalPnl st - snap_totalPnl snapshot in
  let pnlPercentChange :=
    match snap_totalPnlPercent snapshot with
    | PnlNumber percent => Some (calculateTotalPnlPercent st - percent)
    | PnlNA => None
    end in
  (valueChange, costChange, pnlChange, pnlPercentChange).

(** [None] when no stored snapshot has the id (an error is shown). *)
Definition compareSnapshot (snapshotId : Z) st : option (N * N * N * option N) :=
  (λ snapshot, updateComparisonModal snapshot st) <$> findSnapshot snapshotId st.

(** *** Sessions with every handler *)

Inductive SessionOp :=
  | Handler (op : Op N)
  | OpRestoreSnapshot (snapshotId : Z) (confirmed : bool)
  | OpDeleteSnapshot (snapshotId : Z) (confirmed : bool)
  | OpClearSnapshots (confirmed : bool).

Definition sessionStep now (op : SessionOp) st : State N * list Output :=
  match op with
  | Handler op' => let '(st', effects) := step now op' st in (st', Sent <$> effects)
  | OpRestoreSnapshot snapshotId confirmed => restoreSnapshot snapshotId confirmed now st
  | OpDeleteSnapshot snapshotId confirmed => deleteSnapshot snapshotId confirmed st
  | OpClearSnapshots confirmed => clearSnapshots confirmed st
  end.

Definition sessionRun (ops : list (Z * SessionOp)) st : State N :=
  foldl (λ st' '(now, op), (sessionStep now op st').1) st ops.

(** *** The page and the server's copy of the portfolio *)

(** Every call that can change the ledger: those of a session, an import
    and the button [loadLatestSnapshot]. *)
Inductive PageOp :=
  | InSession (op : SessionOp)
  | OpImportData (file : ImportFile)
  | OpLoadLatestSnapshot (response : option (list (Snapshot N))).

Definition pageStep now (op : PageOp) st : State N * list Output :=
  match op with
  | InSession op' => sessionStep now op' st
  | OpImportData file => importData file now st
  | OpLoadLatestSnapshot response => loadLatestSnapshotClicked response now st
  end.

(** What [portfolio] holds on the server once it has handled, in their
    order, the requests of [outputs] to [POST /api/portfolio], which
    stores the body as it comes. *)
Definition storedPortfolio (outputs : list Output) (stored : list (Holding N))
    : list (Holding N) :=
  foldl (λ stored' o, match o with Sent (SavePortfolio p) => p | _ => stored' end)
    stored outputs.

(** The state of the page and the server's copy after the calls of [ops]. *)
Definition pageRun (ops : list (Z * PageOp)) (st : State N) (stored : list (Holding N))
    : State N * list (Holding N) :=
  foldl (λ '(st', stored') '(now, op),
           let '(st'', outputs) := pageStep now op st' in
           (st'', storedPortfolio outputs stored'))
    (st, stored) ops.

End ClientSession.

Arguments Notice : clear implicits.
Arguments Output : clear implicits.
Arguments ImportFile : clear implicits.
Arguments SessionOp : clear implicits.
Arguments PageOp : clear implicits.

(** ** The client: what the page shows *)

(** *** The age of a snapshot ([getTimeAgo]) *)

(** The text of a non-negative integer in a template literal. *)
Definition decimal (k : Z) : string :=
  NilZero.string_of_uint (N.to_uint (Z.to_N k)).

(** [date] is the time value of the [Date] passed, [now] the clock. *)
Definition getTimeAgo (now date : Z) : string :=
  let diffInSeconds := (now - date) / 1000 in
  if diffInSeconds <? 60 then "just now"
  else if diffInSeconds <? 3600 then String.append (decimal (diffInSeconds / 60)) "m ago"
  else if diffInSeconds <? 86400 then String.append (decimal (diffInSeconds / 3600)) "h ago"
  else if diffInSeconds <? 2592000 then String.append (decimal (diffInSeconds / 86400)) "d ago"
  else String.append (decimal (diffInSeconds / 2592000)) "mo ago".

(** *** Amounts of money ([formatPrice]) *)

(** [scaled] is the rounded magnitude times [10^digits]. *)
Definition fixedText (negative : bool) (digits : nat) (scaled : Z) : string :=
  String.append (if negative then "-" else "")
    (String.append (decimal (scaled / 10 ^ Z.of_nat digits))
       (String.append "." (Server.padDigits digits (scaled mod 10 ^ Z.of_nat digits)))).

(** [x.toFixed(digits)] in binary64, for one digit or more; [None] for the
    exponent form of the magnitudes of [10^21] and above. *)
Definition float_toFixed (digits : nat) (x : float) : option string :=
  match Prim2SF x with
  | S754_zero _ => Some (fixedText false digits 0)
  | S754_finite s m e =>
      let scaled := if 0 <=? e
                    then Z.pos m * 2 ^ e * 10 ^ Z.of_nat digits
                    else round_half_up (Z.pos m * 10 ^ Z.of_nat digits) (2 ^ (- e)) in
      if 10 ^ (21 + Z.of_nat digits) <=? scaled then None
      else Some (fixedText s digits scaled)
  | S754_infinity s => Some (if s then "-Infinity" else "Infinity")%string
  | S754_nan => Some "NaN"%string
  end.

(** The literal [0.01] denotes the float [0x1.47ae147ae147bp-7]. *)
Definition formatPrice (price : float) : option string :=
  if PrimFloat.eqb price 0 then Some "$0.00"%string
  else if PrimFloat.ltb price 0x1.47ae147ae147bp-7 then
    String.append "$" <$> float_toFixed 6 price
  else if PrimFloat.ltb price 1 then String.append "$" <$> float_toFixed 4 price
  else if PrimFloat.ltb price 100 then String.append "$" <$> float_toFixed 3 price
  else String.append "$" <$> float_toFixed2 price.

Section ClientDisplay.
Context {N : Type} `{JsNumber N}.
Local Open Scope num_scope.
Local Open Scope bool_scope.

Implicit Types (st : State N) (coin : Holding N).

(** *** The table ([renderPortfolio], [renderSummaryRow]) *)

(** [coin.amount * currentPrice] *)
Definition currentValue st coin : N :=
  amount coin * currentPrice (cryptoData st) (symbol coin).

(** [totalPortfolioValue] *)
Definition totalPortfolioValue st : N :=
  foldl (λ total coin, total + currentValue st coin) num_zero (portfolio st).

(** The share of a row, before [toFixed(2)]. *)
Definition valuePercent st coin : N :=
  if totalPortfolioValue st >? num_zero
  then (currentValue st coin / totalPortfolioValue st) * num_hundred
  else num_zero.

(** [pnl] of a row. *)
Definition rowPnl st coin : N :=
  currentValue st coin - totalCost coin.

(** [totalPnl] and [totalPnlPercent] of the summary row. *)
Definition renderSummaryRow st : N * PnlPercent N :=
  let totalCost' := foldl (λ total coin, total + totalCost coin) num_zero (portfolio st) in
  (totalPortfolioValue st - totalCost',
   calculatePnlPercent (totalPortfolioValue st) totalCost').

(** *** The pie chart ([updateCharts]) *)

(** The index a property key stands for, if it is the canonical text of an
    integer below [2^32 - 1]: such keys come first, in ascending order,
    when the properties of an object are listed. *)
Definition arrayIndex (key : string) : option Z :=
  match NilEmpty.uint_of_string key with
  | Some digits =>
      let index := Z.of_N (N.of_uint digits) in
      if String.eqb (decimal index) key && (index <? 4294967295)%Z
      then Some index else None
  | None => None
  end.

(** [Object.entries(obj)], for an object whose properties are held in the
    order of their creation. *)
Definition objectEntries {V} (obj : list (string * V)) : list (string * V) :=
  let indexOf (entry : string * V) := default 0%Z (arrayIndex entry.1) in
  stableSort (λ a b, (indexOf b <? indexOf a)%Z)
    (List.filter (λ entry, bool_decide (is_Some (arrayIndex entry.1))) obj)
  ++ List.filter (λ entry, negb (bool_decide (is_Some (arrayIndex entry.1)))) obj.

(** The body of the [forEach] that groups the holdings by symbol.  The
    symbols are in upper case, as [addCoin] stores them, so that no key is
    a property that every object inherits. *)
Definition groupBySymbol st (symbolGroups : list (string * N)) coin
    : list (string * N) :=
  if currentValue st coin >? num_zero then
    match Server.property (symbol coin) symbolGroups with
    | Some grouped =>
        if truthy grouped
        then Server.assign (symbol coin) (grouped + currentValue st coin) symbolGroups
        else Server.assign (symbol coin) (currentValue st coin) symbolGroups
    | None => Server.assign (symbol coin) (currentValue st coin) symbolGroups
    end
  else symbolGroups.

(** [pieData]: the pairs of [label] and [value]. *)
Definition pieData st : list (string * N) :=
  match portfolio st with
  | [] => []
  | _ :: _ =>
      let symbolGroups := foldl (groupBySymbol st) [] (portfolio st) in
      stableSort (λ a b, (b.2 - a.2) >? num_zero) (objectEntries symbolGroups)
  end.

(** [totalValue] of the chart, and the holdings passed to
    [updateTopHoldings]. *)
Definition pieTotal st : N :=
  foldl (λ sum item, sum + item.2) num_zero (pieData st).

Definition topHoldings st : list (string * N) :=
  take 5 (pieData st).

End ClientDisplay.

(** ** The server: snapshots, transactions and tags *)

Module Api.

Section Records.
Context {N : Type} `{JsNumber N}.
Local Open Scope num_scope.
Local Open Scope bool_scope.

(** *** [GET /api/latest-totalcost]

    [snapshots] is what [getAllSnapshots] returns, each with its
    [totalCost]; the result is the [totalCost] of the response, [None] for
    [null]. *)
Definition latestTotalCost (snapshots : list (Snapshot N)) : option N :=
  match snapshots with
  | [] => None
  | first :: _ =>
      let found :=
        foldl
          (λ '(latestSnapshot, latestTimestamp) snapshot,
             let timestamp := snap_timestamp snapshot in
             if (latestTimestamp <? timestamp)%Z
             then (snapshot, timestamp)
             else (latestSnapshot, latestTimestamp))
          (first, snap_timestamp first) snapshots in
      Some (snap_totalCost found.1)
  end.

(** *** [POST /api/transactions]

    The body of the request: a field is [None] (or the empty text) when
    the body has no such property. *)
Record TransactionBody := mkTransactionBody {
  body_id : option Z;
  body_timestamp : option Z;
  body_symbol : string;
  body_amount : option N;
  body_purchasePrice : option N;
  body_totalCost : option N;
  body_note : string;
  body_type : option TxType
}.

(** The new content of [transactions], [None] for the answer 400 (nothing
    is written then).  [now] is the server's clock. *)
Definition postTransaction (now : Z) (transaction : TransactionBody)
    (transactions : list (Transaction N)) : option (list (Transaction N)) :=
  match body_amount transaction, body_purchasePrice transaction with
  | Some amount', Some purchasePrice' =>
      if String.eqb (body_symbol transaction) "" || negb (truthy amount') then None
      else
        Some (transactions ++
          [mkTransaction
             (default now (body_id transaction))
             (default now (body_timestamp transaction))
             (body_symbol transaction) amount' purchasePrice'
             (match body_totalCost transaction with
              | Some totalCost' => orElse totalCost' (amount' * purchasePrice')
              | None => amount' * purchasePrice'
              end)
             (body_note transaction)
             (default Buy (body_type transaction))])
  | _, _ => None
  end.

(** The body the client's [saveTransaction] sends for the transaction a
    handler records; the numbers are finite, so that JSON carries them. *)
Definition requestBody (t : Transaction N) : TransactionBody :=
  mkTransactionBody (Some (tx_id t)) (Some (tx_timestamp t)) (tx_symbol t)
    (Some (tx_amount t)) (Some (tx_purchasePrice t)) (Some (tx_totalCost t))
    (tx_note t) (Some (tx_type t)).

End Records.

Arguments TransactionBody : clear implicits.

(** *** Custom tags ([POST /api/projects/tags], [DELETE /api/projects/tags/:tag]) *)

(** The content of [projects]; [customTags] is [None] when the stored
    object has no such property. *)
Record ProjectsData := mkProjectsData {
  projects : list Project;
  customTags : option (list string)
}.

(** What [getData('projects', ...)] gives when nothing is stored. *)
Definition noProjects : ProjectsData := mkProjectsData [] (Some []).

Inductive TagReply :=
  | TagInvalid                      (* 400, Invalid tag name *)
  | TagExists                       (* 400, Tag already exists *)
  | TagNotFound                     (* 404, Tag not found *)
  | TagAdded (tag : string) (allTags : list string)
  | TagDeleted (allTags : list string).

Section Tags.
(** [String.prototype.trim] and [String.prototype.toLowerCase]. *)
Variables trim toLowerCase : string → string.

(** [tag] is the property of the body, [None] when it is absent or not a
    text.  The result is the stored content and the answer. *)
Definition postTag (tag : option string) (data : ProjectsData)
    : ProjectsData * TagReply :=
  match tag with
  | None => (data, TagInvalid)
  | Some tag' =>
      if String.eqb tag' "" || (String.length (trim tag') =? 0)%nat
      then (data, TagInvalid)
      else
        let normalizedTag := toLowerCase (trim tag') in
        let tags := default [] (customTags data) in
        if bool_decide (normalizedTag ∈ tags) then (data, TagExists)
        else
          let tags' := tags ++ [normalizedTag] in
          (mkProjectsData (projects data) (Some tags'), TagAdded normalizedTag tags')
  end.

(** [customTags.indexOf(tag)], then [splice(tagIndex, 1)]. *)
Fixpoint removeFirst (tag : string) (tags : list string) : option (list string) :=
  match tags with
  | [] => None
  | t :: tags' =>
      if String.eqb t tag then Some tags'
      else cons t <$> removeFirst tag tags'
  end.

Definition deleteTag (tag : string) (data : ProjectsData) : ProjectsData * TagReply :=
  match customTags data with
  | None => (data, TagNotFound)
  | Some tags =>
      match removeFirst tag tags with
      | None => (data, TagNotFound)
      | Some tags' => (mkProjectsData (projects data) (Some tags'), TagDeleted tags')
      end
  end.

(** A request to one of the two routes. *)
Inductive TagRequest :=
  | PostTag (tag : option string)
  | DeleteTag (tag : string).

Definition tagRoute (request : TagRequest) (data : ProjectsData) : ProjectsData * TagReply :=
  match request with
  | PostTag tag => postTag tag data
  | DeleteTag tag => deleteTag tag data
  end.

End Tags.

End Api.

(** ** Predicates of the properties *)

(** The pair that identifies a holding. *)
Definition holdingKey {N} (coin : Holding N) : string * string :=
  (symbol coin, note coin).

(** At most one holding for each [(symbol, note)] pair. *)
Definition uniqueHoldings {N} (p : list (Holding N)) : Prop :=
  NoDup (holdingKey <$> p).

(** [Math.abs(x - y) <= 1e-9] in binary64; the literal [1e-9] denotes the
    float [0x1.12e0be826d695p-30]. *)
Definition withinTolerance (x y : float) : bool :=
  PrimFloat.leb (PrimFloat.abs (PrimFloat.sub x y)) 0x1.12e0be826d695p-30%float.

(** The merge invariant of a holding, in exact arithmetic. *)
Definition costConsistent (coin : Holding Qc) : Prop :=
  (0 < amount coin)%Qc ∧ totalCost coin = (amount coin * averagePrice coin)%Qc.

(** The snapshot stores a number as its [totalPnlPercent]. *)
Definition numericSnapshot {N} (s : Snapshot N) : Prop :=
  isNumber (snap_totalPnlPercent s) = true.

(** The snapshots an effect list sends to the server. *)
Definition savedSnapshots {N} (effects : list (Effect N)) : list (Snapshot N) :=
  omap (λ e, match e with SaveSnapshot s => Some s | _ => None end) effects.

(** The transactions an effect list sends to the server. *)
Definition savedTransactions {N} (effects : list (Effect N)) : list (Transaction N) :=
  omap (λ e, match e with SaveTransaction t => Some t | _ => None end) effects.

(** [s] is a snapshot of [l] of the UTC day [date], and no snapshot of [l] of
    that day has a later timestamp. *)
Definition latestOfDay (l : list (Snapshot float)) (date : string)
    (s : Snapshot float) : Prop :=
  s ∈ l
  ∧ Server.isoDate (snap_timestamp s) = date
  ∧ ∀ s', s' ∈ l → Server.isoDate (snap_timestamp s') = date →
      snap_timestamp s' ≤ snap_timestamp s.

(** The value of the holdings of a snapshot at the prices of the snapshot. *)
Definition snapshotValue {N} `{JsNumber N} (s : Snapshot N) : N :=
  foldl (λ total coin, total + amount coin * currentPrice (snap_cryptoData s) (symbol coin))%num
    num_zero (snap_portfolio s).

(** The totals of a snapshot agree with its holdings, with its prices and
    with each other. *)
Definition coherentSnapshot {N} `{JsNumber N} (s : Snapshot N) : Prop :=
  snap_totalValue s = snapshotValue s
  ∧ snap_totalPnl s = (snap_totalValue s - snap_totalCost s)%num
  ∧ snap_totalPnlPercent s =
      PnlNumber (if (snap_totalCost s >? num_zero)%num
                 then ((snap_totalPnl s / snap_totalCost s) * num_hundred)%num
                 else num_zero).

(** The handlers that leave the list of snapshots alone. *)
Definition keepsSnapshots {N} (op : Op N) : bool :=
  match op with
  | OpCreateSnapshot _ _ | OpAutoSnapshot _ _ | OpSetTotalCost _ | OpResetTotalCost => false
  | _ => true
  end.

(** The handlers that leave the cost override alone. *)
Definition keepsOverride {N} (op : Op N) : bool :=
  match op with
  | OpSetTotalCost _ | OpResetTotalCost => false
  | _ => true
  end.

(** The snapshots a list of outputs sends to the server. *)
Definition sentSnapshots {N} (outputs : list (Output N)) : list (Snapshot N) :=
  omap (λ o, match o with Sent (SaveSnapshot s) => Some s | _ => None end) outputs.

(** The value of the holdings that have a positive value, and of those
    among them that have the symbol [label]. *)
Definition positiveValue {N} `{JsNumber N} (st : State N) : N :=
  foldl (λ total coin,
           if (currentValue st coin >? num_zero)%num
           then (total + currentValue st coin)%num else total)
    num_zero (portfolio st).

Definition groupedValue {N} `{JsNumber N} (st : State N) (label : string) : N :=
  foldl (λ total coin,
           if String.eqb (symbol coin) label && (currentValue st coin >? num_zero)%num
           then (total + currentValue st coin)%num else total)
    num_zero (portfolio st).

(** The snapshots are newest first, the history entries oldest first,
    and none is later than [t]. *)
Definition inTimeOrder {N} (t : Z) (st : State N) : Prop :=
  StronglySorted (λ a b, snap_timestamp b ≤ snap_timestamp a)%Z (portfolioSnapshots st)
  ∧ Forall (λ s, snap_timestamp s ≤ t)%Z (portfolioSnapshots st)
  ∧ StronglySorted (λ a b, he_timestamp a ≤ he_timestamp b)%Z (portfolioHistory st)
  ∧ Forall (λ e, he_timestamp e ≤ t)%Z (portfolioHistory st).

(** ** Fixed-point text, by example *)

Example toFixed2_120 : float_toFixed2 120%float = Some "120.00"%string.
Proof. vm_compute. reflexivity. Qed.
Example toFixed2_half_cent : float_toFixed2 0.125%float = Some "0.13"%string.
Proof. vm_compute. reflexivity. Qed.
Example toFixed2_neg : float_toFixed2 (-2.5)%float = Some "-2.50"%string.
Proof. vm_compute. reflexivity. Qed.

(** ** Comparison laws of the two arithmetics *)

Lemma SFcompare_antisym (x y : spec_float) :
  SFcompare y x = CompOpp <$> SFcompare x y.
Proof.
  destruct x as [sx|sx| |sx mx ex], y as [sy|sy| |sy my ey]; simpl;
    try reflexivity; try (destruct sx; reflexivity); try (destruct sy; reflexivity);
    try (destruct sx, sy; reflexivity).
  destruct sx, sy; simpl; try reflexivity;
    rewrite (Z.compare_antisym ex ey); destruct (ex ?= ey)%Z; simpl; try reflexivity;
    change (PosDef.Pos.compare_cont Eq my mx) with (Pos.compare my mx);
    change (PosDef.Pos.compare_cont Eq mx my) with (Pos.compare mx my);
    rewrite (Pos.compare_antisym mx my); destruct (mx ?= my)%positive; reflexivity.
Qed.

#[export] Instance float_JsNumberLaws : JsNumberLaws float.
Proof.
  split; simpl; intros x y.
  - rewrite leb_spec, ltb_spec, FloatAxioms.eqb_spec.
    unfold SFleb, SFltb, SFeqb. destruct (SFcompare _ _) as [[]|]; reflexivity.
  - rewrite !ltb_spec. unfold SFltb.
    rewrite (SFcompare_antisym (Prim2SF x) (Prim2SF y)).
    destruct (SFcompare _ _) as [[]|]; simpl; congruence.
  - rewrite FloatAxioms.eqb_spec, ltb_spec. unfold SFltb, SFeqb.
    rewrite (SFcompare_antisym (Prim2SF x) (Prim2SF y)).
    destruct (SFcompare _ _) as [[]|]; simpl; congruence.
  - rewrite !FloatAxioms.eqb_spec. unfold SFeqb.
    rewrite (SFcompare_antisym (Prim2SF x) (Prim2SF y)).
    destruct (SFcompare _ _) as [[]|]; reflexivity.
Qed.

#[export] Instance Qc_JsNumberLaws : JsNumberLaws Qc.
Proof.
  split; simpl; intros x y; unfold Qc_leb, Qc_ltb, Qc_eqb.
  - destruct (x ?= y)%Qc; reflexivity.
  - unfold Qccompare. rewrite <- (Qcompare_antisym x y).
    destruct (x ?= y)%Q; simpl; congruence.
  - unfold Qccompare. rewrite <- (Qcompare_antisym x y).
    destruct (x ?= y)%Q; simpl; congruence.
  - unfold Qccompare. rewrite <- (Qcompare_antisym x y).
    destruct (x ?= y)%Q; reflexivity.
Qed.

(** ** Properties of the client *)

(** Case analysis on the branches a handler takes. *)
Ltac handler_cases :=
  unfold step, addCoin, removeCoin, clearPortfolio, loadCryptoPrices,
    ensureHistoryEntry, autoSnapshot, createSnapshot, setTotalCost, resetTotalCost;
  repeat match goal with
    | |- context [match ?l with [] => _ | _ :: _ => _ end] => case_eq l; intros
    | |- context [match ?o with Some _ => _ | None => _ end] => case_eq o; intros
    | |- context [if ?b then _ else _] => case_eq b; intros
    end;
  cbn [fst snd].

Section ClientProperties.
Context {N : Type} `{JsNumber N}.
Local Open Scope num_scope.

Implicit Types (st : State N) (coin : Holding N) (now : Z).

(** *** What the helpers leave alone *)

Lemma portfolio_updateTotalValue now st :
  portfolio (updateTotalValue now st) = portfolio st.
Proof. reflexivity. Qed.

Lemma portfolioTotalCost_updateTotalValue now st :
  portfolioTotalCost (updateTotalValue now st) = portfolioTotalCost st.
Proof. reflexivity. Qed.

Lemma portfolioSnapshots_updateTotalValue now st :
  portfolioSnapshots (updateTotalValue now st) = portfolioSnapshots st.
Proof. reflexivity. Qed.

Lemma portfolio_pushSnapshot (snapshot : Snapshot N) st :
  portfolio (pushSnapshot snapshot st) = portfolio st.
Proof. reflexivity. Qed.

(** *** The history cap *)

Lemma savePortfolioHistory_history now (v c p : N) (pp : PnlPercent N) st :
  portfolioHistory (savePortfolioHistory now v c p pp st) =
    let pushed := portfolioHistory st ++ [mkHistoryEntry now v c p pp (portfolio st)] in
    if (100 <? length pushed)%nat then sliceLast 100 pushed else pushed.
Proof. reflexivity. Qed.

Lemma savePortfolioHistory_length now (v c p : N) (pp : PnlPercent N) st :
  (length (portfolioHistory (savePortfolioHistory now v c p pp st)) ≤ 100)%nat.
Proof.
  rewrite savePortfolioHistory_history. cbv zeta.
  destruct (Nat.ltb_spec 100
    (length (portfolioHistory st ++ [mkHistoryEntry now v c p pp (portfolio st)]))).
  - unfold sliceLast. rewrite length_drop. lia.
  - lia.
Qed.

Lemma updateTotalValue_length now st :
  (length (portfolioHistory (updateTotalValue now st)) ≤ 100)%nat.
Proof. apply savePortfolioHistory_length. Qed.

Lemma step_history_capped now (op : Op N) st :
  (length (portfolioHistory st) ≤ 100)%nat →
  (length (portfolioHistory (step now op st).1) ≤ 100)%nat.
Proof.
  intros Hst.
  destruct op; handler_cases;
    first [apply updateTotalValue_length | apply savePortfolioHistory_length
          | exact Hst].
Qed.

Lemma run_snoc (ops : list (Z * Op N)) now (op : Op N) st :
  run (ops ++ [(now, op)]) st = (step now op (run ops st)).1.
Proof. unfold run. rewrite foldl_snoc. reflexivity. Qed.

(** C8. The session history never holds more than 100 entries: after every
    call of [savePortfolioHistory] it is a final segment of the old history
    followed by the new entry, of length at most 100; from 100 entries
    exactly the oldest one goes, and below 100 none does; and no sequence
    of handler calls from the initial state gets past 100. *)
Theorem savePortfolioHistory_capped now (v c p : N) (pp : PnlPercent N) st :
  let historyEntry := mkHistoryEntry now v c p pp (portfolio st) in
  let st' := savePortfolioHistory now v c p pp st in
  (length (portfolioHistory st') ≤ 100)%nat
  ∧ (∃ k, portfolioHistory st' = drop k (portfolioHistory st ++ [historyEntry]))
  ∧ (length (portfolioHistory st) = 100%nat →
       portfolioHistory st' = tail (portfolioHistory st) ++ [historyEntry])
  ∧ ((length (portfolioHistory st) < 100)%nat →
       portfolioHistory st' = portfolioHistory st ++ [historyEntry])
  ∧ (∀ ops : list (Z * Op N),
       (length (portfolioHistory (run ops (@initialState N))) ≤ 100)%nat).
Proof.
  cbv zeta. split; [apply savePortfolioHistory_length|].
  rewrite savePortfolioHistory_history. cbv zeta.
  set (historyEntry := mkHistoryEntry now v c p pp (portfolio st)).
  repeat split.
  - destruct (_ <? _)%nat; [by eexists | by exists 0%nat].
  - intros Hlen. rewrite length_app, Hlen. simpl.
    unfold sliceLast. rewrite length_app, Hlen. simpl.
    destruct (portfolioHistory st); [done|reflexivity].
  - intros Hlen. rewrite length_app. simpl.
    destruct (Nat.ltb_spec 100 (length (portfolioHistory st) + 1)); [lia|done].
  - intros ops. induction ops as [|[now' op] ops IH] using rev_ind.
    + simpl. lia.
    + rewrite run_snoc. by apply step_history_capped.
Qed.

(** *** Snapshots store a number *)

Lemma pushSnapshot_numeric (snapshot : Snapshot N) st :
  numericSnapshot snapshot →
  Forall numericSnapshot (portfolioSnapshots st) →
  Forall numericSnapshot (portfolioSnapshots (pushSnapshot snapshot st)).
Proof.
  intros Hs Hst. unfold pushSnapshot.
  change (portfolioSnapshots (set_portfolioSnapshots ?l _)) with l.
  destruct (_ <? _)%nat; [apply Forall_take|]; by constructor.
Qed.

(** C10. The [totalPnlPercent] of every snapshot a handler creates is a
    number: handlers keep the stored snapshots numeric and send only numeric
    snapshots to the server; and when the aggregate cost is not above zero,
    [createSnapshot] stores the number 0 where the displayed metric
    [calculatePnlPercent] is ['N/A']. *)
Theorem snapshot_totalPnlPercent_numeric now (op : Op N) st :
  (Forall numericSnapshot (portfolioSnapshots st) →
     Forall numericSnapshot (portfolioSnapshots (step now op st).1))
  ∧ Forall numericSnapshot (savedSnapshots (step now op st).2)
  ∧ (∀ description projects,
       portfolio st ≠ [] →
       (calculateTotalCost st >? num_zero) = false →
       snap_totalPnlPercent <$> savedSnapshots (createSnapshot description projects now st).2
         = [PnlNumber num_zero]
       ∧ calculatePnlPercent (calculateTotalValue st) (calculateTotalCost st) = PnlNA).
Proof.
  split; [|split].
  - intros Hst.
    destruct op; handler_cases;
      rewrite ?portfolioSnapshots_updateTotalValue;
      first [exact Hst | apply pushSnapshot_numeric; [reflexivity|exact Hst]].
  - destruct op; handler_cases; unfold savedSnapshots; simpl; repeat constructor.
  - intros description projects Hne Hcost.
    unfold createSnapshot, calculatePnlPercent, calculateTotalPnlPercent.
    rewrite Hcost. destruct (portfolio st); [done|]. by simpl.
Qed.

(** *** The cost override *)

(** C5. [setTotalCost] on an empty ledger, or with a negative value, only
    shows an error message: the state is returned as it was (no override is
    set, no snapshot is added) and nothing is sent to the server. *)
Theorem setTotalCost_rejected (newTotalCost : N) now st :
  portfolio st = [] ∨ (newTotalCost <? num_zero) = true →
  (setTotalCost newTotalCost now st).1 = st
  ∧ (∃ m, (setTotalCost newTotalCost now st).2 = [ShowMessage m KindError])
  ∧ savedSnapshots (setTotalCost newTotalCost now st).2 = [].
Proof.
  unfold setTotalCost. intros [Hempty|Hneg].
  - rewrite Hempty. simpl. eauto.
  - rewrite Hneg. destruct (portfolio st); simpl; eauto.
Qed.

(** *** Sorting rearranges *)

Lemma insertBy_perm {A} (after : A → A → bool) (x : A) (l : list A) :
  insertBy after x l ≡ₚ x :: l.
Proof.
  induction l as [|y l IH]; simpl; [done|].
  destruct (after x y); [|done].
  rewrite IH. apply Permutation_swap.
Qed.

Lemma stableSort_perm {A} (after : A → A → bool) (l : list A) :
  stableSort after l ≡ₚ l.
Proof.
  induction l as [|x l IH]; simpl; [done|].
  rewrite insertBy_perm. by constructor.
Qed.

Lemma portfolio_sortPortfolio column order st :
  portfolio (sortPortfolio column order st) ≡ₚ portfolio st.
Proof. apply stableSort_perm. Qed.

(** *** One holding for each pair *)

Lemma sameHolding_key (sym nt : string) coin :
  sameHolding sym nt coin = true ↔ holdingKey coin = (sym, nt).
Proof.
  unfold sameHolding, holdingKey. rewrite andb_true_iff, !String.eqb_eq.
  split; [intros [-> ->]; done | by intros [= -> ->]].
Qed.

Lemma find_none_key (sym nt : string) (p : list (Holding N)) :
  List.find (sameHolding sym nt) p = None ↔ (sym, nt) ∉ holdingKey <$> p.
Proof.
  induction p as [|coin p IH]; simpl.
  - split; [intros _; apply not_elem_of_nil | done].
  - rewrite not_elem_of_cons. destruct (sameHolding sym nt coin) eqn:Hc.
    + apply sameHolding_key in Hc. split; [done | intros [Hne _]; congruence].
    + rewrite IH. split; [|tauto]. intros Hp. split; [|done].
      intros Heq. symmetry in Heq. apply sameHolding_key in Heq. congruence.
Qed.

Lemma updateFirst_keys (q : Holding N → bool) (f : Holding N → Holding N)
    (p : list (Holding N)) :
  (∀ coin, holdingKey (f coin) = holdingKey coin) →
  holdingKey <$> updateFirst q f p = holdingKey <$> p.
Proof.
  intros Hf. induction p as [|coin p IH]; [done|].
  cbn [updateFirst]. destruct (q coin); rewrite !fmap_cons; [by rewrite Hf | by rewrite IH].
Qed.

Lemma addOrMerge_unique (sym : string) (amt pp : N) (nt : string)
    (p : list (Holding N)) :
  uniqueHoldings p → uniqueHoldings (addOrMerge sym amt pp nt p).
Proof.
  unfold uniqueHoldings, addOrMerge. intros Hp.
  destruct (List.find (sameHolding sym nt) p) eqn:Hfind.
  - by rewrite updateFirst_keys.
  - apply find_none_key in Hfind. rewrite fmap_app. simpl.
    apply NoDup_app. split; [done|]. split; [|apply NoDup_singleton].
    intros key Hkey ->%list_elem_of_singleton. done.
Qed.

Lemma filter_unique (q : Holding N → bool) (p : list (Holding N)) :
  uniqueHoldings p → uniqueHoldings (List.filter q p).
Proof.
  unfold uniqueHoldings. induction p as [|coin p IH]; simpl; [done|].
  rewrite NoDup_cons. intros [Hnotin Hp]. destruct (q coin); simpl; [|by apply IH].
  apply NoDup_cons. split; [|by apply IH].
  intros Hin. apply Hnotin.
  apply list_elem_of_fmap in Hin as (coin' & -> & Hin).
  apply list_elem_of_fmap. exists coin'. split; [done|].
  apply list_elem_of_In. apply list_elem_of_In in Hin.
  by apply List.filter_In in Hin as [? _].
Qed.

Lemma sortPortfolio_unique column order st :
  uniqueHoldings (portfolio st) →
  uniqueHoldings (portfolio (sortPortfolio column order st)).
Proof.
  unfold uniqueHoldings. by rewrite portfolio_sortPortfolio.
Qed.

Lemma step_unique now (op : Op N) st :
  uniqueHoldings (portfolio st) → uniqueHoldings (portfolio (step now op st).1).
Proof.
  intros Hst.
  destruct op; handler_cases; rewrite ?portfolio_updateTotalValue;
    try exact Hst; try apply sortPortfolio_unique;
    cbn [portfolio set_portfolio set_cryptoData];
    first [ exact Hst | by apply addOrMerge_unique | by apply filter_unique
          | apply NoDup_nil_2 ].
Qed.

Lemma removeCoin_portfolio (sym nt : string) now st :
  portfolio (removeCoin sym nt now st).1 ≡ₚ
    List.filter (λ coin, negb (sameHolding sym nt coin)) (portfolio st).
Proof.
  unfold removeCoin. cbn [fst]. rewrite portfolio_updateTotalValue.
  by rewrite portfolio_sortPortfolio.
Qed.

(** C9. [uniqueHoldings] (at most one holding for each [(symbol, note)]
    pair) is kept by every handler, so it holds after every sequence of
    handler calls from an empty ledger; [addOrMerge] changes the length of
    the ledger only when the pair is new; after [removeCoin] no holding
    has the removed pair; and a confirmed [clearPortfolio] leaves no
    holding. *)
Theorem uniqueHoldings_preserved :
  (∀ now (op : Op N) st,
     uniqueHoldings (portfolio st) → uniqueHoldings (portfolio (step now op st).1))
  ∧ (∀ (ops : list (Z * Op N)) st,
       portfolio st = [] → uniqueHoldings (portfolio (run ops st)))
  ∧ (∀ sym amt pp nt (p : list (Holding N)),
       (sym, nt) ∈ holdingKey <$> p →
       length (addOrMerge sym amt pp nt p) = length p)
  ∧ (∀ sym nt now st coin,
       coin ∈ portfolio (removeCoin sym nt now st).1 → holdingKey coin ≠ (sym, nt))
  ∧ (∀ now st, portfolio (clearPortfolio true now st).1 = []).
Proof.
  split; [exact step_unique|]. split; [|split; [|split]].
  - intros ops st Hempty.
    induction ops as [|[now op] ops IH] using rev_ind.
    + simpl. rewrite Hempty. apply NoDup_nil_2.
    + rewrite run_snoc. by apply step_unique.
  - intros sym amt pp nt p Hin. unfold addOrMerge.
    destruct (List.find (sameHolding sym nt) p) eqn:Hfind.
    + rewrite <- (length_fmap holdingKey), updateFirst_keys; [|done].
      by rewrite length_fmap.
    + by apply find_none_key in Hfind.
  - intros sym nt now st coin Hin Hkey.
    rewrite removeCoin_portfolio in Hin.
    apply list_elem_of_In, List.filter_In in Hin as [_ Hneg].
    apply sameHolding_key in Hkey. by rewrite Hkey in Hneg.
  - intros now st. reflexivity.
Qed.

(** *** Removing a holding *)

Lemma filter_no_match (sym nt : string) (p : list (Holding N)) :
  List.find (sameHolding sym nt) p = None →
  List.filter (λ coin, negb (sameHolding sym nt coin)) p = p.
Proof.
  induction p as [|coin p IH]; simpl; [done|].
  destruct (sameHolding sym nt coin); simpl; [done|].
  intros Hfind. by rewrite IH.
Qed.

Lemma sellPrice_cases (data : gmap string (PriceInfo N)) (sym : string) coin :
  sellPrice data sym coin =
    match data !! sym with
    | Some info => if truthy (price info) then price info else averagePrice coin
    | None => averagePrice coin
    end.
Proof. reflexivity. Qed.

(** C6 (as amended). [removeCoin] keeps exactly the holdings whose pair is
    not [(symbol, note)].  With no matching holding the ledger is the one it
    was (the list posted to the server is the old one, and the list kept is
    a rearrangement of it) and no transaction is sent.  With a matching
    holding exactly one sell transaction is sent, for the amount of the
    first match, at the live price when the price table has a price for the
    symbol that is neither zero nor NaN, and at the holding's
    [averagePrice] otherwise. *)
Theorem removeCoin_spec (sym nt : string) now st :
  (∀ coin, coin ∈ portfolio (removeCoin sym nt now st).1 ↔
     coin ∈ portfolio st ∧ holdingKey coin ≠ (sym, nt))
  ∧ match List.find (sameHolding sym nt) (portfolio st) with
    | None =>
        (removeCoin sym nt now st).2 =
          [SavePortfolio (portfolio st); ShowMessage (MsgRemoved sym nt) KindSuccess]
        ∧ savedTransactions (removeCoin sym nt now st).2 = []
        ∧ portfolio (removeCoin sym nt now st).1 ≡ₚ portfolio st
    | Some coinToRemove =>
        let currentPrice' :=
          match cryptoData st !! sym with
          | Some info =>
              if truthy (price info) then price info else averagePrice coinToRemove
          | None => averagePrice coinToRemove
          end in
        savedTransactions (removeCoin sym nt now st).2 =
          [mkTransaction now now sym (amount coinToRemove) currentPrice'
             (amount coinToRemove * currentPrice') nt Sell]
    end.
Proof.
  split.
  - intros coin. rewrite removeCoin_portfolio.
    rewrite list_elem_of_In, List.filter_In, <- list_elem_of_In.
    rewrite negb_true_iff, <- not_true_iff_false, sameHolding_key. done.
  - destruct (List.find (sameHolding sym nt) (portfolio st)) eqn:Hfind.
    + cbv zeta. unfold removeCoin. rewrite Hfind. reflexivity.
    + assert ((removeCoin sym nt now st).2 =
                [SavePortfolio (portfolio st); ShowMessage (MsgRemoved sym nt) KindSuccess])
        as Heffects.
      { unfold removeCoin. rewrite Hfind. cbn [fst snd app set_portfolio portfolio].
        by rewrite filter_no_match. }
      split; [exact Heffects|]. split; [by rewrite Heffects|].
      rewrite removeCoin_portfolio. by rewrite filter_no_match.
Qed.

(** *** The automatic snapshot *)

Lemma laterSnapshot_foldl_in (first : Snapshot N) (rest : list (Snapshot N)) :
  foldl laterSnapshot first rest ∈ first :: rest.
Proof.
  revert first. induction rest as [|current rest IH]; intros first; simpl.
  - apply list_elem_of_here.
  - specialize (IH (laterSnapshot first current)).
    apply elem_of_cons in IH as [->|Hin].
    + unfold laterSnapshot. destruct (_ <? _)%Z.
      * apply list_elem_of_further, list_elem_of_here.
      * apply list_elem_of_here.
    + by do 2 apply list_elem_of_further.
Qed.

Lemma laterSnapshot_foldl_max (first : Snapshot N) (rest : list (Snapshot N))
    (s : Snapshot N) :
  s ∈ first :: rest →
  (snap_timestamp s ≤ snap_timestamp (foldl laterSnapshot first rest))%Z.
Proof.
  revert first s. induction rest as [|current rest IH]; intros first s Hin; simpl.
  - apply list_elem_of_singleton in Hin as ->. lia.
  - assert (snap_timestamp first ≤ snap_timestamp (laterSnapshot first current)
            ∧ snap_timestamp current ≤ snap_timestamp (laterSnapshot first current))%Z
      as [Hfirst Hcurrent].
    { unfold laterSnapshot.
      destruct (Z.ltb_spec (snap_timestamp first) (snap_timestamp current)); lia. }
    pose proof (IH (laterSnapshot first current)) as IH'.
    apply elem_of_cons in Hin as [->|[->|Hin]%elem_of_cons].
    + etrans; [exact Hfirst|]. apply IH', list_elem_of_here.
    + etrans; [exact Hcurrent|]. apply IH', list_elem_of_here.
    + by apply IH', list_elem_of_further.
Qed.

(** C7. The gate answers [false] (the automatic snapshot is suppressed)
    exactly when [/api/snapshots] answered a non-empty array whose most
    recent snapshot, by stored timestamp, is at most one hour older than
    the clock ([now - timestamp <= 3600000]).  With no snapshot, and when
    the request fails, it answers [true].  In the timer of the page load a
    [false] leaves the state alone and a [true] calls
    [createSnapshot('Page Refresh')]. *)
Theorem shouldCreateAutoSnapshot_spec (response : option (list (Snapshot N))) now :
  (shouldCreateAutoSnapshot response now = false ↔
     ∃ snapshots latest,
       response = Some snapshots ∧ latest ∈ snapshots
       ∧ (∀ s, s ∈ snapshots → (snap_timestamp s ≤ snap_timestamp latest)%Z)
       ∧ (now - snap_timestamp latest ≤ oneHourMs)%Z)
  ∧ shouldCreateAutoSnapshot (Some (@nil (Snapshot N))) now = true
  ∧ shouldCreateAutoSnapshot (@None (list (Snapshot N))) now = true
  ∧ (∀ projects st,
       autoSnapshot response projects now st =
         if shouldCreateAutoSnapshot response now
         then createSnapshot (DescText "Page Refresh") projects now st
         else (st, [])).
Proof.
  split; [|split; [done|split; [done|]]].
  - split.
    + destruct response as [[|first rest]|]; simpl; [done| |done].
      intros Hgate%Z.ltb_ge.
      exists (first :: rest), (foldl laterSnapshot first rest).
      split; [done|]. split; [apply laterSnapshot_foldl_in|].
      split; [apply laterSnapshot_foldl_max|done].
    + intros (snapshots & latest & -> & Hin & Hmax & Hrecent).
      destruct snapshots as [|first rest]; [by apply elem_of_nil in Hin|].
      simpl. apply Z.ltb_ge.
      pose proof (laterSnapshot_foldl_max first rest latest Hin).
      pose proof (Hmax _ (laterSnapshot_foldl_in first rest)).
      lia.
  - reflexivity.
Qed.

(** *** The affected holding of [addCoin] *)

Lemma mergeHolding_key (amt pp : N) coin :
  holdingKey (mergeHolding amt pp coin) = holdingKey coin.
Proof. reflexivity. Qed.

Lemma find_updateFirst (q : Holding N → bool) (f : Holding N → Holding N)
    (p : list (Holding N)) coin :
  (∀ c, q (f c) = q c) →
  List.find q p = Some coin → List.find q (updateFirst q f p) = Some (f coin).
Proof.
  intros Hf. induction p as [|c p IH]; simpl; [done|].
  destruct (q c) eqn:Hc; simpl.
  - intros [= ->]. by rewrite Hf, Hc.
  - by rewrite Hc.
Qed.

Lemma find_snoc_none (q : Holding N → bool) (p : list (Holding N)) coin :
  List.find q p = None → q coin = true → List.find q (p ++ [coin]) = Some coin.
Proof.
  intros Hp Hcoin. induction p as [|c p IH]; simpl in *; [by rewrite Hcoin|].
  destruct (q c); [done|by apply IH].
Qed.

Lemma sameHolding_newHolding (sym : string) (amt pp : N) (nt : string) :
  sameHolding sym nt (newHolding sym amt pp nt) = true.
Proof. by apply sameHolding_key. Qed.

Lemma sameHolding_mergeHolding (sym nt : string) (amt pp : N) coin :
  sameHolding sym nt (mergeHolding amt pp coin) = sameHolding sym nt coin.
Proof. reflexivity. Qed.

(** The holding that [find] returns after the addition is the new entry,
    or the merge into the entry that [find] returned before. *)
Lemma addOrMerge_affected (sym : string) (amt pp : N) (nt : string)
    (p : list (Holding N)) :
  List.find (sameHolding sym nt) (addOrMerge sym amt pp nt p) =
    Some match List.find (sameHolding sym nt) p with
         | Some existingCoin => mergeHolding amt pp existingCoin
         | None => newHolding sym amt pp nt
         end.
Proof.
  unfold addOrMerge. destruct (List.find (sameHolding sym nt) p) eqn:Hfind.
  - apply find_updateFirst; [|done]. intros c. apply sameHolding_mergeHolding.
  - apply find_snoc_none; [done|]. apply sameHolding_newHolding.
Qed.

Section Laws.
Context `{!JsNumberLaws N}.

(** *** Validation *)

Lemma positive_truthy (x : N) : (num_zero <? x) = true → truthy x = true.
Proof. unfold truthy. intros ->. apply orb_true_r. Qed.

Lemma positive_not_leb_zero (x : N) :
  (num_zero <? x) = true → (x <=? num_zero) = false.
Proof.
  intros Hpos. rewrite num_leb_ltb_eqb.
  rewrite (num_ltb_asym _ _ Hpos). simpl.
  destruct (x =? num_zero) eqn:Heq; [|done].
  apply num_eqb_not_ltb in Heq. congruence.
Qed.

Lemma nonnegative_not_negative (x : N) :
  (num_zero <=? x) = true → (x <? num_zero) = false.
Proof.
  rewrite num_leb_ltb_eqb. intros [Hlt|Heq]%orb_true_iff.
  - by apply num_ltb_asym.
  - by apply num_eqb_not_ltb.
Qed.

Lemma nonnegative_zero_or_positive (x : N) :
  (num_zero <=? x) = true → (num_zero <? x) = false → (x =? num_zero) = true.
Proof.
  rewrite num_leb_ltb_eqb. intros Hle Hlt. rewrite Hlt in Hle. simpl in Hle.
  by rewrite num_eqb_sym.
Qed.

(** A call of [addCoin] with a symbol, a positive amount and a price that
    is not negative passes both checks. *)
Lemma addCoin_valid (sym : string) (amt pp : N) (nt : string) now st :
  sym ≠ ""%string → (num_zero <? amt) = true → (num_zero <=? pp) = true →
  addCoin sym amt pp nt now st =
    (let st1 := set_portfolio (addOrMerge sym amt pp nt (portfolio st)) st in
     (updateTotalValue now (sortPortfolio ColCurrentValue Desc st1),
      [SaveTransaction (mkTransaction now now sym amt pp (amt * pp) nt Buy);
       SavePortfolio (portfolio st1); ShowMessage (MsgAdded sym) KindSuccess])).
Proof.
  intros Hsym Hamt Hpp. unfold addCoin.
  destruct (String.eqb_spec sym "") as [->|_]; [done|].
  rewrite (positive_truthy _ Hamt), (positive_not_leb_zero _ Hamt),
    (nonnegative_not_negative _ Hpp). reflexivity.
Qed.

(** What every arithmetic gives for the holding an accepted [addCoin]
    touches: it is in the ledger afterwards; a new entry has
    [totalCost] equal to [amount * averagePrice] as computed; a merged
    entry has the accumulated amount and cost, [averagePrice] equal to
    [totalCost / amount] as computed, and [purchasePrice] equal to it. *)
Lemma addCoin_affected (sym : string) (amt pp : N) (nt : string) now st :
  sym ≠ ""%string → (num_zero <? amt) = true → (num_zero <=? pp) = true →
  ∃ affected,
    List.find (sameHolding sym nt) (addOrMerge sym amt pp nt (portfolio st))
      = Some affected
    ∧ affected ∈ portfolio (addCoin sym amt pp nt now st).1
    ∧ match List.find (sameHolding sym nt) (portfolio st) with
      | None =>
          affected = newHolding sym amt pp nt
          ∧ totalCost affected = amount affected * averagePrice affected
      | Some existingCoin =>
          amount affected = amount existingCoin + amt
          ∧ totalCost affected = totalCost existingCoin + amt * pp
          ∧ averagePrice affected = totalCost affected / amount affected
          ∧ purchasePrice affected = averagePrice affected
      end.
Proof.
  intros Hsym Hamt Hpp. eexists. split; [apply addOrMerge_affected|]. split.
  - rewrite addCoin_valid by done. cbv zeta. cbn [fst].
    rewrite portfolio_updateTotalValue, portfolio_sortPortfolio.
    cbn [portfolio set_portfolio].
    apply list_elem_of_In. eapply List.find_some. apply addOrMerge_affected.
  - destruct (List.find (sameHolding sym nt) (portfolio st)); done.
Qed.

(** *** The percentage *)

(** C3 (as amended). [calculatePnlPercent] answers ['N/A'] exactly when the
    cost is not above zero; so for a cost that is not negative, exactly
    when the cost is zero.  For a cost above zero it answers
    [(value - cost) / cost * 100].  The sentinel meets no arithmetic: the
    sort replaces it by 0 (a holding whose cost is not above zero sorts by
    the key 0) and the table cell shows the text ['N/A']. *)
Theorem calculatePnlPercent_sentinel (currentValue cost : N) :
  (calculatePnlPercent currentValue cost = PnlNA ↔ (num_zero <? cost) = false)
  ∧ ((num_zero <=? cost) = true →
       (calculatePnlPercent currentValue cost = PnlNA ↔ (cost =? num_zero) = true))
  ∧ ((num_zero <? cost) = true →
       calculatePnlPercent currentValue cost =
         PnlNumber (((currentValue - cost) / cost) * num_hundred))
  ∧ pnlPercentSortKey (calculatePnlPercent currentValue cost) =
      (if num_zero <? cost then ((currentValue - cost) / cost) * num_hundred
       else num_zero)
  ∧ (∀ st coin, (num_zero <? totalCost coin) = false →
       sortValue st ColPnlPercent coin = num_zero)
  ∧ pnlPercentCell (calculatePnlPercent currentValue cost) =
      (if num_zero <? cost
       then pnlPercentCell (PnlNumber (((currentValue - cost) / cost) * num_hundred))
       else (Neutral, Some "N/A"%string)).
Proof.
  assert (calculatePnlPercent currentValue cost = PnlNA ↔ (num_zero <? cost) = false)
    as Hna.
  { unfold calculatePnlPercent, num_gtb. destruct (num_zero <? cost); split; done. }
  split; [exact Hna|]. split; [|split; [|split; [|split]]].
  - intros Hnonneg. rewrite Hna. split.
    + by apply nonnegative_zero_or_positive.
    + apply num_eqb_not_ltb.
  - intros Hpos. unfold calculatePnlPercent, num_gtb. by rewrite Hpos.
  - unfold calculatePnlPercent, num_gtb. by destruct (num_zero <? cost).
  - intros st coin Hcost. unfold sortValue, calculatePnlPercent, num_gtb.
    by rewrite Hcost.
  - unfold calculatePnlPercent, num_gtb. by destruct (num_zero <? cost).
Qed.

(** *** Setting and resetting the cost override *)

(** C4. On a ledger with holdings, [setTotalCost(v)] with [v >= 0] makes
    the aggregate cost [v], and [resetTotalCost()] after it makes the
    aggregate cost the sum of the holdings' [totalCost] again: the value it
    has with no override, whatever override was there before.  Neither call
    touches the holdings. *)
Theorem setTotalCost_then_resetTotalCost (newTotalCost : N) (now1 now2 : Z) st :
  portfolio st ≠ [] → (num_zero <=? newTotalCost) = true →
  let st1 := (setTotalCost newTotalCost now1 st).1 in
  let st2 := (resetTotalCost now2 st1).1 in
  calculateTotalCost st1 = newTotalCost
  ∧ calculateTotalCost st2 = sumTotalCost (portfolio st)
  ∧ calculateTotalCost st2 = calculateTotalCost (set_portfolioTotalCost None st)
  ∧ portfolio st1 = portfolio st
  ∧ portfolio st2 = portfolio st.
Proof.
  intros Hne Hv. cbv zeta.
  unfold setTotalCost. destruct (portfolio st) as [|coin p] eqn:Hp; [done|].
  rewrite (nonnegative_not_negative _ Hv). cbn [fst].
  unfold resetTotalCost.
  rewrite !portfolio_updateTotalValue, !portfolio_pushSnapshot.
  cbn [portfolio set_portfolioTotalCost]. rewrite Hp. cbn [fst].
  unfold calculateTotalCost.
  rewrite !portfolioTotalCost_updateTotalValue, !portfolio_updateTotalValue.
  cbn. rewrite Hp. done.
Qed.

End Laws.

End ClientProperties.

(** ** The merge rule in exact arithmetic *)

Section Exact.
Local Open Scope Qc_scope.

Implicit Types (coin : Holding Qc) (st : State Qc).

Lemma Qc_leb_false (x y : Qc) : Qc_leb x y = false → y < x.
Proof.
  unfold Qc_leb. intros Hle. apply (Qcgt_alt x y).
  destruct (x ?= y); done.
Qed.

Lemma Qc_sum_positive (x y : Qc) : 0 < x → 0 < y → 0 < x + y.
Proof.
  intros Hx Hy. apply Qclt_trans with x; [done|].
  apply Qclt_minus_iff. by replace (x + y + - x) with y by ring.
Qed.

Lemma newHolding_costConsistent (sym : string) (amt pp : Qc) (nt : string) :
  0 < amt → costConsistent (newHolding sym amt pp nt).
Proof. intros Hamt. split; [exact Hamt|reflexivity]. Qed.

Lemma mergeHolding_costConsistent (amt pp : Qc) coin :
  0 < amt → costConsistent coin → costConsistent (mergeHolding amt pp coin).
Proof.
  intros Hamt [Hpos _]. split; simpl.
  - by apply Qc_sum_positive.
  - symmetry. apply Qcmult_div_r.
    intros Hzero. pose proof (Qc_sum_positive _ _ Hpos Hamt) as Hsum.
    rewrite Hzero in Hsum. by apply Qclt_not_eq in Hsum.
Qed.

Lemma updateFirst_Forall {A} (P : A → Prop) (q : A → bool) (f : A → A) (l : list A) :
  (∀ x, P x → P (f x)) → Forall P l → Forall P (updateFirst q f l).
Proof.
  intros Hf. induction 1 as [|x l Hx Hl IH]; simpl; [done|].
  destruct (q x); constructor; auto.
Qed.

Lemma filter_Forall {A} (P : A → Prop) (q : A → bool) (l : list A) :
  Forall P l → Forall P (List.filter q l).
Proof.
  induction 1 as [|x l Hx Hl IH]; simpl; [done|].
  destruct (q x); [by constructor|done].
Qed.

Lemma addOrMerge_costConsistent (sym : string) (amt pp : Qc) (nt : string)
    (p : list (Holding Qc)) :
  0 < amt → Forall costConsistent p →
  Forall costConsistent (addOrMerge sym amt pp nt p).
Proof.
  intros Hamt Hp. unfold addOrMerge. destruct (List.find _ p).
  - apply updateFirst_Forall; [|done]. intros c. by apply mergeHolding_costConsistent.
  - apply Forall_app. split; [done|].
    constructor; [by apply newHolding_costConsistent|done].
Qed.

Lemma step_costConsistent (now : Z) (op : Op Qc) st :
  Forall costConsistent (portfolio st) →
  Forall costConsistent (portfolio (step now op st).1).
Proof.
  intros Hst.
  destruct op; handler_cases;
    rewrite ?portfolio_updateTotalValue, ?portfolio_sortPortfolio;
    cbn [portfolio set_portfolio set_cryptoData];
    try exact Hst; try (by apply filter_Forall); try (by constructor).
  apply addOrMerge_costConsistent; [|done].
  match goal with
  | Hcheck : (_ || _)%bool = false |- _ =>
      apply orb_false_iff in Hcheck as [Hamt _]; by apply Qc_leb_false in Hamt
  end.
Qed.

Lemma run_costConsistent (ops : list (Z * Op Qc)) st :
  Forall costConsistent (portfolio st) →
  Forall costConsistent (portfolio (run ops st)).
Proof.
  intros Hst. induction ops as [|[now op] ops IH] using rev_ind; [done|].
  rewrite run_snoc. by apply step_costConsistent.
Qed.

End Exact.

(** ** The cost of a holding after an addition *)




(** C3, counterexample. A cost of -1 is not zero, and the answer is
    ['N/A']. *)
Lemma calculatePnlPercent_negative_cost_counterexample :
  calculatePnlPercent 50%float (-1)%float = PnlNA
  ∧ PrimFloat.eqb (-1)%float 0%float = false.
Proof. vm_compute. done. Qed.

(** The scenario of a holding of cost 100 with no live price: the value
    is 0 and the percentage is -100. *)
Lemma calculatePnlPercent_sentinel_witness :
  calculatePnlPercent 0%float 100%float = PnlNumber (-100)%float
  ∧ pnlPercentSortKey (calculatePnlPercent 0%float 0%float) = 0%float.
Proof.
  destruct (calculatePnlPercent_sentinel (N:=float) 0%float 100%float)
    as (_ & _ & Hpos & _).
  destruct (calculatePnlPercent_sentinel (N:=float) 0%float 0%float)
    as (_ & _ & _ & Hkey & _).
  split.
  - rewrite Hpos by reflexivity. vm_compute. reflexivity.
  - rewrite Hkey. vm_compute. reflexivity.
Defined.

(** A ledger of one holding of cost 100: an override of 50, then a reset. *)
Lemma setTotalCost_then_resetTotalCost_witness :
  let st := (addCoin "BTC" 1%float 100%float "" 1000 (@initialState float)).1 in
  calculateTotalCost (setTotalCost 50%float 2000 st).1 = 50%float
  ∧ calculateTotalCost (resetTotalCost 3000 (setTotalCost 50%float 2000 st).1).1
      = 100%float.
Proof.
  cbv zeta.
  destruct (setTotalCost_then_resetTotalCost (N:=float) 50%float 2000 3000
              (addCoin "BTC" 1%float 100%float "" 1000 (@initialState float)).1)
    as (Hset & Hreset & _); [done|reflexivity|].
  split; [exact Hset|]. rewrite Hreset. vm_compute. reflexivity.
Defined.

(** The scenario of the empty ledger: [setTotalCost(50)] changes nothing
    and saves no snapshot; so does a negative value on a ledger with a
    holding. *)
Lemma setTotalCost_rejected_witness :
  (setTotalCost 50%float 1000 (@initialState float)).1 = initialState
  ∧ savedSnapshots (setTotalCost 50%float 1000 (@initialState float)).2 = []
  ∧ let st := (addCoin "BTC" 1%float 100%float "" 1000 (@initialState float)).1 in
    (setTotalCost (-5)%float 2000 st).1 = st.
Proof.
  destruct (setTotalCost_rejected 50%float 1000 (@initialState float))
    as (Hst & _ & Hsaved); [by left|].
  split; [exact Hst|]. split; [exact Hsaved|]. cbv zeta.
  by destruct (setTotalCost_rejected (-5)%float 2000
                 (addCoin "BTC" 1%float 100%float "" 1000 (@initialState float)).1)
    as (Hst' & _); [by right|].
Defined.

(** One hundred and one recomputations of the metrics, at the instants 1 to
    101: the history holds the entries of the instants 2 to 101, in that
    order. *)
Example history_of_101_entries :
  he_timestamp <$>
    portfolioHistory
      (run ((λ now, (now, OpUpdateTotalValue)) <$> seqZ 1 101) (@initialState float))
  = seqZ 2 100.
Proof. vm_compute. reflexivity. Qed.

(** C6, counterexample. The price table has the live price 0 for BTC; the
    holding sold has [averagePrice] 200; the sell transaction is priced at
    200, not at the live price. *)
Lemma removeCoin_zero_price_counterexample :
  let held := (addCoin "BTC" 2%float 200%float "" 1000 (@initialState float)).1 in
  let st := set_cryptoData {[ "BTC"%string := mkPriceInfo 0%float 0%float ]} held in
  price <$> (cryptoData st !! "BTC"%string) = Some 0%float
  ∧ averagePrice <$> portfolio st = [200%float]
  ∧ tx_purchasePrice <$> savedTransactions (removeCoin "BTC" "" 3000 st).2
      = [200%float].
Proof. vm_compute. done. Qed.

(** ** The history export *)

Section ExportProperties.
Import Server.

(** *** The object of the days *)

Lemma property_assign_eq {V} (key : string) (v : V) (obj : list (string * V)) :
  property key (assign key v obj) = Some v.
Proof.
  induction obj as [|[k v'] obj IH]; simpl.
  - by rewrite String.eqb_refl.
  - destruct (String.eqb k key) eqn:Hk; simpl; by rewrite Hk.
Qed.

Lemma property_assign_ne {V} (key key' : string) (v : V) (obj : list (string * V)) :
  key ≠ key' → property key' (assign key v obj) = property key' obj.
Proof.
  intros Hne. induction obj as [|[k v'] obj IH]; simpl.
  - by destruct (String.eqb_spec key key').
  - destruct (String.eqb_spec k key) as [->|Hk]; simpl.
    + by destruct (String.eqb_spec key key').
    + by destruct (String.eqb_spec k key').
Qed.

Lemma property_None {V} (key : string) (obj : list (string * V)) :
  property key obj = None ↔ key ∉ obj.*1.
Proof.
  induction obj as [|[k v] obj IH]; simpl.
  - split; [intros _; apply not_elem_of_nil|done].
  - rewrite not_elem_of_cons. destruct (String.eqb_spec k key) as [->|Hk].
    + split; [done|tauto].
    + rewrite IH. split; [|tauto]. intros Hobj. split; [congruence|done].
Qed.

Lemma assign_keys {V} (key : string) (v : V) (obj : list (string * V)) :
  (assign key v obj).*1 =
    match property key obj with Some _ => obj.*1 | None => obj.*1 ++ [key] end.
Proof.
  induction obj as [|[k v'] obj IH]; [done|]. cbn [assign property].
  destruct (String.eqb_spec k key) as [->|Hk]; [done|].
  rewrite !fmap_cons, IH. by destruct (property key obj).
Qed.

Lemma property_elem {V} (key : string) (v : V) (obj : list (string * V)) :
  NoDup obj.*1 → property key obj = Some v ↔ (key, v) ∈ obj.
Proof.
  induction obj as [|[k v'] obj IH]; simpl.
  - intros _. split; [done|]. by intros ?%elem_of_nil.
  - rewrite NoDup_cons. intros [Hk Hobj]. rewrite elem_of_cons.
    destruct (String.eqb_spec k key) as [->|Hne].
    + split; [intros [= ->]; by left|].
      intros [[= ->]|Hin]; [done|]. exfalso. apply Hk.
      apply list_elem_of_fmap. by exists (key, v).
    + rewrite IH by done. split; [by right|]. intros [[= -> ->]|Hin]; done.
Qed.

(** *** Keeping the latest snapshot of each day *)

Lemma keepLatest_fold (l : list (Snapshot float)) :
  let dailySnapshots := foldl keepLatest [] l in
  NoDup dailySnapshots.*1
  ∧ (∀ date s, property date dailySnapshots = Some s → latestOfDay l date s)
  ∧ (∀ s, s ∈ l → is_Some (property (isoDate (snap_timestamp s)) dailySnapshots)).
Proof.
  cbv zeta. induction l as [|x l IH] using rev_ind.
  - simpl. split; [apply NoDup_nil_2|]. split; [done|]. by intros s ?%elem_of_nil.
  - rewrite foldl_snoc. destruct IH as (Hnodup & Hlatest & Hall).
    set (daily := foldl keepLatest [] l) in *.
    set (key := isoDate (snap_timestamp x)).
    assert (∀ date s, date ≠ key → latestOfDay l date s → latestOfDay (l ++ [x]) date s)
      as Hother.
    { intros date s Hne (Hin & Hdate & Hmax). split; [|split; [done|]].
      - apply elem_of_app. by left.
      - intros s' [Hs' | ->%list_elem_of_singleton]%elem_of_app Hs'date;
          [by apply Hmax|done]. }
    assert (∀ s, s ∈ l ++ [x] →
              is_Some (property (isoDate (snap_timestamp s)) (assign key x daily)))
      as Hall_assign.
    { intros s [Hs | ->%list_elem_of_singleton]%elem_of_app.
      - destruct (decide (key = isoDate (snap_timestamp s))) as [<-|Hne].
        + rewrite property_assign_eq. by eexists.
        + rewrite property_assign_ne by done. by apply Hall.
      - fold key. rewrite property_assign_eq. by eexists. }
    unfold keepLatest. fold key.
    destruct (property key daily) as [kept|] eqn:Hkept.
    + destruct (Hlatest _ _ Hkept) as (Hkin & Hkdate & Hkmax).
      destruct (Z.ltb_spec (snap_timestamp kept) (snap_timestamp x)) as [Hlt|Hge].
      * split; [by rewrite assign_keys, Hkept|]. split; [|done].
        intros date s. destruct (decide (key = date)) as [<-|Hne].
        -- rewrite property_assign_eq. intros [= <-]. split; [|split; [done|]].
           ++ apply elem_of_app. right. apply list_elem_of_here.
           ++ intros s' [Hs' | ->%list_elem_of_singleton]%elem_of_app Hs'date; [|lia].
              specialize (Hkmax s' Hs' Hs'date). lia.
        -- rewrite property_assign_ne by done. intros Hs. apply Hother; [done|].
           by apply Hlatest.
      * split; [done|]. split.
        -- intros date s Hs. destruct (decide (key = date)) as [<-|Hne].
           ++ rewrite Hkept in Hs. injection Hs as <-. split; [|split; [done|]].
              ** apply elem_of_app. by left.
              ** intros s' [Hs' | ->%list_elem_of_singleton]%elem_of_app Hs'date;
                   [by apply Hkmax|done].
           ++ apply Hother; [done|]. by apply Hlatest.
        -- intros s [Hs | ->%list_elem_of_singleton]%elem_of_app; [by apply Hall|].
           fold key. rewrite Hkept. by eexists.
    + apply property_None in Hkept as Hfresh.
      split; [rewrite assign_keys, Hkept|split; [|done]].
      * apply NoDup_app. split; [done|]. split; [|apply NoDup_singleton].
        by intros k Hk ->%list_elem_of_singleton.
      * intros date s. destruct (decide (key = date)) as [<-|Hne].
        -- rewrite property_assign_eq. intros [= <-]. split; [|split; [done|]].
           ++ apply elem_of_app. right. apply list_elem_of_here.
           ++ intros s' [Hs' | ->%list_elem_of_singleton]%elem_of_app Hs'date; [|lia].
              destruct (Hall s' Hs') as [kept Hsome]. rewrite Hs'date in Hsome.
              congruence.
        -- rewrite property_assign_ne by done. intros Hs. apply Hother; [done|].
           by apply Hlatest.
Qed.

(** *** Sorting by date *)

Lemma insertBy_Sorted {A} (after : A → A → bool) (x : A) (l : list A) :
  (∀ a b, after a b = true → after b a = false) →
  Sorted (λ a b, after a b = false) l →
  Sorted (λ a b, after a b = false) (insertBy after x l).
Proof.
  intros Hasym. induction 1 as [|y l Hl IH Hhd]; simpl.
  - by repeat constructor.
  - destruct (after x y) eqn:Hxy.
    + constructor; [done|]. destruct l as [|z l]; simpl.
      * constructor. by apply Hasym.
      * destruct (after x z); constructor; [by inversion Hhd|by apply Hasym].
    + constructor; [by constructor|by constructor].
Qed.

Lemma stableSort_Sorted {A} (after : A → A → bool) (l : list A) :
  (∀ a b, after a b = true → after b a = false) →
  Sorted (λ a b, after a b = false) (stableSort after l).
Proof.
  intros Hasym. induction l as [|x l IH]; simpl; [constructor|].
  by apply insertBy_Sorted.
Qed.

Lemma ltb_asym (a b : string) : String.ltb a b = true → String.ltb b a = false.
Proof.
  unfold String.ltb. rewrite (String.compare_antisym a b).
  by destruct (String.compare b a).
Qed.

Lemma not_ltb_distinct (a b : string) :
  String.ltb b a = false → a ≠ b → String.ltb a b = true.
Proof.
  unfold String.ltb. rewrite (String.compare_antisym a b).
  destruct (String.compare b a) eqn:Hc; simpl; try done.
  intros _ Hne. apply String.compare_eq_iff in Hc. congruence.
Qed.

Lemma Sorted_strict {V} (l : list (string * V)) :
  NoDup l.*1 →
  Sorted (λ a b, String.ltb b.1 a.1 = false) l →
  Sorted (λ a b, String.ltb a.1 b.1 = true) l.
Proof.
  intros Hnodup. induction 1 as [|a l Hl IH Hhd]; [constructor|].
  apply NoDup_cons in Hnodup as [Ha Hnodup]. constructor; [by apply IH|].
  destruct Hhd as [|b l Hab]; constructor.
  apply not_ltb_distinct; [done|]. intros Heq. apply Ha. rewrite Heq.
  simpl. apply list_elem_of_here.
Qed.


End ExportProperties.

Section ExportExampleProperties.
Import Server ExportExample.

(** The named instants of the example, as numbers. *)
Ltac eval_instants :=
  repeat match goal with
    | |- context [utcTime ?y ?m ?d ?h ?min] =>
        let v := eval vm_compute in (utcTime y m d h min) in
        change (utcTime y m d h min) with v
    | H : context [utcTime ?y ?m ?d ?h ?min] |- _ =>
        let v := eval vm_compute in (utcTime y m d h min) in
        change (utcTime y m d h min) with v in H
    end.

(** The export of the example in terms of the end of the range that the
    route computes: the row of 2024-01-02 is there exactly when that end is
    not before the snapshot of 09:00Z. *)
Lemma exportHistory_example_by_end (tzOffset : Z) :
  let end' := setHoursEndOfDay tzOffset (utcTime 2024 1 2 0 0) in
  utcTime 2024 1 2 0 0 ≤ end' < utcTime 2024 1 3 0 0 →
  exportHistory tzOffset query snapshots =
    Some ("portfolio-history-2024-01-01-to-2024-01-02.csv"%string,
          String.concat newline
            (if end' <? utcTime 2024 1 2 9 0
             then ["date,portfolio"; "2024-01-01,120.00"]%string
             else ["date,portfolio"; "2024-01-01,120.00"; "2024-01-02,130.00"]%string)).
Proof.
  cbv zeta. unfold exportHistory, dailyData, query.
  cbn [startDate endDate fmap option_fmap option_map].
  generalize (setHoursEndOfDay tzOffset (utcTime 2024 1 2 0 0)). intros e He.
  assert (isoDate e = "2024-01-02"%string) as ->.
  { unfold isoDate. eval_instants.
    replace (e / msPerDay) with 19724
      by (unfold msPerDay; apply Z.div_unique with (r := e - 19724 * 86400000); lia).
    vm_compute. reflexivity. }
  assert (stableSort (λ a b : Snapshot float, snap_timestamp b <? snap_timestamp a)
            snapshots = snapshots) as -> by (vm_compute; reflexivity).
  unfold snapshots, inRange. cbn [List.filter snap_timestamp snapshotAt].
  eval_instants.
  destruct (Z.ltb_spec e 1704186000000).
  - repeat match goal with
      | |- context [(?a <? ?b)] =>
          first [ replace (a <? b) with true by (symmetry; apply Z.ltb_lt; lia)
                | replace (a <? b) with false by (symmetry; apply Z.ltb_ge; lia) ]
      end.
    vm_compute. reflexivity.
  - repeat match goal with
      | |- context [(?a <? ?b)] =>
          first [ replace (a <? b) with true by (symmetry; apply Z.ltb_lt; lia)
                | replace (a <? b) with false by (symmetry; apply Z.ltb_ge; lia) ]
      end.
    vm_compute. reflexivity.
Qed.

(** The end of the range for [endDate=2024-01-02], by time zone: east of
    UTC (and at UTC) the local day of 2024-01-02T00:00Z is 2024-01-02, west
    of UTC it is 2024-01-01. *)
Lemma setHoursEndOfDay_example (tzOffset : Z) :
  - 12 * hourMs ≤ tzOffset ≤ 14 * hourMs →
  setHoursEndOfDay tzOffset (utcTime 2024 1 2 0 0) =
    if tzOffset <? 0
    then utcTime 2024 1 2 0 0 - tzOffset - 1
    else utcTime 2024 1 3 0 0 - tzOffset - 1.
Proof.
  unfold setHoursEndOfDay, hourMs, msPerDay. eval_instants. intros Htz.
  destruct (Z.ltb_spec tzOffset 0).
  - replace ((1704153600000 + tzOffset) / 86400000) with 19723; [lia|].
    apply Z.div_unique with (r := 1704153600000 + tzOffset - 19723 * 86400000); lia.
  - replace ((1704153600000 + tzOffset) / 86400000) with 19724; [lia|].
    apply Z.div_unique with (r := 1704153600000 + tzOffset - 19724 * 86400000); lia.
Qed.

(** The export of the example on a server of any fixed time zone from
    UTC-12:00 to UTC+14:00: from UTC-09:00 to just west of UTC the row of
    2024-01-02 is missing; elsewhere both rows are there. *)
Lemma exportHistory_example_time_zones (tzOffset : Z) :
  - 12 * hourMs ≤ tzOffset ≤ 14 * hourMs →
  exportHistory tzOffset query snapshots =
    Some ("portfolio-history-2024-01-01-to-2024-01-02.csv"%string,
          String.concat newline
            (if (- 9 * hourMs <=? tzOffset) && (tzOffset <? 0)
             then ["date,portfolio"; "2024-01-01,120.00"]%string
             else ["date,portfolio"; "2024-01-01,120.00"; "2024-01-02,130.00"]%string)).
Proof.
  intros Htz. pose proof (setHoursEndOfDay_example tzOffset Htz) as Hend.
  rewrite exportHistory_example_by_end; rewrite Hend; clear Hend;
    unfold hourMs in *; eval_instants.
  - f_equal. f_equal. f_equal.
    destruct (Z.ltb_spec tzOffset 0), (Z.leb_spec (- 9 * 3600000) tzOffset);
      try lia; cbn [andb];
      first [ replace (_ <? 1704186000000) with true by (symmetry; apply Z.ltb_lt; lia)
            | replace (_ <? 1704186000000) with false by (symmetry; apply Z.ltb_ge; lia) ];
      reflexivity.
  - destruct (Z.ltb_spec tzOffset 0); lia.
Qed.

End ExportExampleProperties.

(** C2. The three snapshots of the example, exported for 2024-01-01 to
    2024-01-02.  On a server whose local time is UTC the body is the header
    and the rows [2024-01-01,120.00] and [2024-01-02,130.00].  On a server
    whose local time is UTC-08:00 the end of the range, set with the local
    [setHours], is 2024-01-02T07:59:59.999Z: the snapshot of 09:00Z falls
    outside it and the row of 2024-01-02 is missing. *)
Theorem exportHistory_example :
  Server.exportHistory 0 ExportExample.query ExportExample.snapshots =
    Some ("portfolio-history-2024-01-01-to-2024-01-02.csv"%string,
          String.concat Server.newline
            ["date,portfolio"; "2024-01-01,120.00"; "2024-01-02,130.00"]%string)
  ∧ Server.setHoursEndOfDay (-8 * ExportExample.hourMs) (Server.utcTime 2024 1 2 0 0)
      = Server.utcTime 2024 1 2 7 59 + 59999
  ∧ Server.exportHistory (-8 * ExportExample.hourMs)
      ExportExample.query ExportExample.snapshots =
    Some ("portfolio-history-2024-01-01-to-2024-01-02.csv"%string,
          String.concat Server.newline
            ["date,portfolio"; "2024-01-01,120.00"]%string).
Proof. vm_compute. done. Qed.

(** ** Stored snapshots over a session *)

Section SessionProperties.
Context {N : Type} `{JsNumber N}.
Local Open Scope num_scope.

Implicit Types (st : State N) (coin : Holding N) (now : Z).

Lemma sessionStep_Handler now (op : Op N) st :
  (sessionStep now (Handler op) st).1 = (step now op st).1.
Proof. simpl. by destruct (step now op st). Qed.

Lemma sessionRun_snoc (ops : list (Z * SessionOp N)) now (op : SessionOp N) st :
  sessionRun (ops ++ [(now, op)]) st = (sessionStep now op (sessionRun ops st)).1.
Proof. unfold sessionRun. rewrite foldl_snoc. reflexivity. Qed.

Lemma portfolioSnapshots_pushSnapshot (snapshot : Snapshot N) st :
  portfolioSnapshots (pushSnapshot snapshot st) = take 50 (snapshot :: portfolioSnapshots st).
Proof.
  unfold pushSnapshot. change (portfolioSnapshots (set_portfolioSnapshots ?l _)) with l.
  destruct (Nat.ltb_spec 50 (length (snapshot :: portfolioSnapshots st))); [done|].
  by rewrite take_ge.
Qed.

(** A handler leaves the stored snapshots as they are, or puts in front a
    snapshot of the present holdings and prices whose id is the clock
    reading. *)
Lemma step_snapshots now (op : Op N) st :
  portfolioSnapshots (step now op st).1 = portfolioSnapshots st
  ∨ ∃ snapshot,
      snap_id snapshot = now
      ∧ snap_portfolio snapshot = portfolio st
      ∧ snap_cryptoData snapshot = cryptoData st
      ∧ coherentSnapshot snapshot
      ∧ portfolioSnapshots (step now op st).1 = take 50 (snapshot :: portfolioSnapshots st).
Proof.
  destruct op; handler_cases; rewrite ?portfolioSnapshots_updateTotalValue;
    try (by left); right;
    match goal with Hp : portfolio st = _ |- _ => rewrite <- Hp end;
    eexists; rewrite portfolioSnapshots_pushSnapshot;
    (split; [|split; [|split; [|split]]]); try reflexivity;
    repeat split;
    cbn [snap_totalCost snap_totalPnl snap_totalPnlPercent];
    match goal with Hc : num_gtb _ _ = _ |- _ => by rewrite Hc end.
Qed.

Lemma sessionStep_snapshots_Forall (P : Snapshot N → Prop) now (op : SessionOp N) st :
  (∀ s, snap_id s = now → snap_portfolio s = portfolio st →
        snap_cryptoData s = cryptoData st → coherentSnapshot s → P s) →
  Forall P (portfolioSnapshots st) →
  Forall P (portfolioSnapshots (sessionStep now op st).1).
Proof.
  intros Hnew Hst. destruct op as [op|id c|id c|c].
  - rewrite sessionStep_Handler.
    destruct (step_snapshots now op st) as [->|(s & Hid & Hp & Hd & Hc & ->)]; [done|].
    apply Forall_take. constructor; [by apply Hnew|done].
  - simpl. unfold restoreSnapshot. destruct (findSnapshot id st); [|done].
    by destruct c.
  - simpl. unfold deleteSnapshot. destruct c; [|done]. cbn [fst].
    change (portfolioSnapshots (set_portfolioSnapshots ?l _)) with l.
    apply Forall_forall. intros s [Hin _]%list_elem_of_In%List.filter_In.
    rewrite Forall_forall in Hst. by apply Hst, list_elem_of_In.
  - simpl. unfold clearSnapshots. by destruct c.
Qed.

Lemma sessionStep_portfolioHistory now (op : SessionOp N) st :
  (length (portfolioHistory st) ≤ 100)%nat →
  (length (portfolioHistory (sessionStep now op st).1) ≤ 100)%nat.
Proof.
  intros Hst. destruct op as [op|id c|id c|c].
  - rewrite sessionStep_Handler. by apply step_history_capped.
  - simpl. unfold restoreSnapshot. destruct (findSnapshot id st); [|done].
    destruct c; [|done]. apply updateTotalValue_length.
  - simpl. unfold deleteSnapshot. by destruct c.
  - simpl. unfold clearSnapshots. by destruct c.
Qed.

Lemma sessionStep_portfolioSnapshots_length now (op : SessionOp N) st :
  (length (portfolioSnapshots st) ≤ 50)%nat →
  (length (portfolioSnapshots (sessionStep now op st).1) ≤ 50)%nat.
Proof.
  intros Hst. destruct op as [op|id c|id c|c].
  - rewrite sessionStep_Handler.
    destruct (step_snapshots now op st) as [->|(s & _ & _ & _ & _ & ->)]; [done|].
    rewrite length_take. lia.
  - simpl. unfold restoreSnapshot. destruct (findSnapshot id st); [|done].
    by destruct c.
  - simpl. unfold deleteSnapshot. destruct c; [|done]. cbn [fst].
    change (portfolioSnapshots (set_portfolioSnapshots ?l _)) with l.
    etrans; [apply List.filter_length_le|done].
  - simpl. unfold clearSnapshots. destruct c; [simpl; lia|done].
Qed.

(** X1. The two stored lists stay within their caps over a whole session,
    restores and deletions included: at most 50 snapshots and at most 100
    history entries.  A new snapshot goes in front, and from 50 snapshots
    the oldest one, at the end, goes. *)
Theorem session_caps (ops : list (Z * SessionOp N)) st :
  (length (portfolioSnapshots st) ≤ 50)%nat →
  (length (portfolioHistory st) ≤ 100)%nat →
  (length (portfolioSnapshots (sessionRun ops st)) ≤ 50)%nat
  ∧ (length (portfolioHistory (sessionRun ops st)) ≤ 100)%nat
  ∧ (∀ snapshot,
       portfolioSnapshots (pushSnapshot snapshot (sessionRun ops st)) =
         snapshot :: take 49 (portfolioSnapshots (sessionRun ops st))).
Proof.
  intros Hsnap Hhist.
  assert ((length (portfolioSnapshots (sessionRun ops st)) ≤ 50)%nat
          ∧ (length (portfolioHistory (sessionRun ops st)) ≤ 100)%nat) as [Hs Hh].
  { induction ops as [|[now op] ops [IHs IHh]] using rev_ind; [done|].
    rewrite sessionRun_snoc. split.
    - by apply sessionStep_portfolioSnapshots_length.
    - by apply sessionStep_portfolioHistory. }
  split; [done|]. split; [done|].
  intros snapshot. by rewrite portfolioSnapshots_pushSnapshot.
Qed.

Lemma step_saved_coherent now (op : Op N) st :
  Forall coherentSnapshot (savedSnapshots (step now op st).2).
Proof.
  destruct op; handler_cases; unfold savedSnapshots; cbn [omap list_omap];
    repeat first [apply Forall_nil_2 | apply Forall_cons_2];
    try match goal with Hp : portfolio st = _ |- _ => rewrite <- Hp end;
    repeat split;
    cbn [snap_totalCost snap_totalPnl snap_totalPnlPercent];
    match goal with Hc : num_gtb _ _ = _ |- _ => rewrite Hc; reflexivity end.
Qed.

Lemma sentSnapshots_Sent (effects : list (Effect N)) :
  sentSnapshots (Sent <$> effects) = savedSnapshots effects.
Proof.
  unfold sentSnapshots, savedSnapshots.
  induction effects as [|e effects IH]; [done|].
  rewrite fmap_cons. destruct e; cbn [omap list_omap]; by rewrite IH.
Qed.


(** *** One holding for each pair, restores included *)

Lemma sessionStep_unique now (op : SessionOp N) st :
  uniqueHoldings (portfolio st) →
  Forall (λ s, uniqueHoldings (snap_portfolio s)) (portfolioSnapshots st) →
  uniqueHoldings (portfolio (sessionStep now op st).1).
Proof.
  intros Hp Hs. destruct op as [op|id c|id c|c].
  - rewrite sessionStep_Handler. by apply step_unique.
  - simpl. unfold restoreSnapshot, findSnapshot.
    destruct (List.find _ _) as [s|] eqn:Hfind; [|done]. destruct c; [|done].
    cbn [fst]. rewrite portfolio_updateTotalValue. apply sortPortfolio_unique.
    cbn [portfolio set_portfolio set_cryptoData].
    apply List.find_some in Hfind as [Hin _]. rewrite Forall_forall in Hs.
    by apply Hs, list_elem_of_In.
  - simpl. unfold deleteSnapshot. by destruct c.
  - simpl. unfold clearSnapshots. by destruct c.
Qed.

(** X3. Uniqueness of the [(symbol, note)] pairs holds over a whole session
    in which snapshots are also restored, deleted and cleared: every
    stored snapshot was taken of a ledger with one holding for each pair,
    so that restoring it brings back such a ledger. *)
Theorem uniqueHoldings_session (ops : list (Z * SessionOp N)) st :
  uniqueHoldings (portfolio st) →
  Forall (λ s, uniqueHoldings (snap_portfolio s)) (portfolioSnapshots st) →
  uniqueHoldings (portfolio (sessionRun ops st))
  ∧ Forall (λ s, uniqueHoldings (snap_portfolio s)) (portfolioSnapshots (sessionRun ops st)).
Proof.
  intros Hp Hs. induction ops as [|[now op] ops [IHp IHs]] using rev_ind; [done|].
  rewrite sessionRun_snoc. split.
  - by apply sessionStep_unique.
  - apply sessionStep_snapshots_Forall; [|done].
    intros s _ Hportfolio _ _. by rewrite Hportfolio.
Qed.

(** *** Restoring a snapshot *)

Lemma restoreSnapshot_found (snapshotId : Z) now st (s : Snapshot N) :
  findSnapshot snapshotId st = Some s →
  portfolio (restoreSnapshot snapshotId true now st).1 ≡ₚ snap_portfolio s
  ∧ cryptoData (restoreSnapshot snapshotId true now st).1 = snap_cryptoData s
  ∧ portfolioTotalCost (restoreSnapshot snapshotId true now st).1 = portfolioTotalCost st
  ∧ portfolioSnapshots (restoreSnapshot snapshotId true now st).1 = portfolioSnapshots st.
Proof.
  intros Hfind. unfold restoreSnapshot. rewrite Hfind. cbn [fst].
  rewrite portfolio_updateTotalValue, portfolio_sortPortfolio. done.
Qed.

(** X4. [restoreSnapshot] with an id that no stored snapshot has only shows
    an error, and a declined dialog changes nothing.  A confirmed restore
    of the snapshot found (the first one with this id) replaces the
    holdings, up to the order, and the prices by the snapshot's; it does
    not touch the list of snapshots, and it does not restore the cost
    basis: an override that is set stays the aggregate cost, whatever
    [totalCost] the snapshot has. *)
Theorem restoreSnapshot_spec (snapshotId : Z) now st :
  (findSnapshot snapshotId st = None →
     ∀ confirmed, restoreSnapshot snapshotId confirmed now st
                  = (st, [Notified NoticeSnapshotNotFound KindError]))
  ∧ (∀ s, findSnapshot snapshotId st = Some s →
       let st' := (restoreSnapshot snapshotId true now st).1 in
       s ∈ portfolioSnapshots st ∧ snap_id s = snapshotId
       ∧ restoreSnapshot snapshotId false now st = (st, [])
       ∧ portfolio st' ≡ₚ snap_portfolio s
       ∧ cryptoData st' = snap_cryptoData s
       ∧ portfolioSnapshots st' = portfolioSnapshots st
       ∧ portfolioTotalCost st' = portfolioTotalCost st
       ∧ (∀ c, portfolioTotalCost st = Some c → calculateTotalCost st' = c)).
Proof.
  split.
  - intros Hfind confirmed. unfold restoreSnapshot. by rewrite Hfind.
  - intros s Hfind. cbv zeta.
    destruct (restoreSnapshot_found snapshotId now st s Hfind) as (Hp & Hd & Hc & Hs).
    unfold findSnapshot in Hfind. apply List.find_some in Hfind as Hin.
    destruct Hin as [Hin Hid%Z.eqb_eq]. fold (findSnapshot snapshotId st) in Hfind.
    split; [by apply list_elem_of_In|]. split; [done|].
    split; [unfold restoreSnapshot; by rewrite Hfind|].
    repeat (split; [done|]).
    intros c Hoverride. unfold calculateTotalCost. by rewrite Hc, Hoverride.
Qed.

Lemma step_keepsSnapshots now (op : Op N) st :
  keepsSnapshots op = true →
  portfolioSnapshots (step now op st).1 = portfolioSnapshots st.
Proof. destruct op; try done; intros _; handler_cases; reflexivity. Qed.

Lemma run_keepsSnapshots (ops : list (Z * Op N)) st :
  Forall (λ x, keepsSnapshots x.2 = true) ops →
  portfolioSnapshots (run ops st) = portfolioSnapshots st.
Proof.
  induction ops as [|[now op] ops IH] using rev_ind; [done|].
  intros [Hops [Hop _]%Forall_cons]%Forall_app.
  rewrite run_snoc, step_keepsSnapshots by done. by apply IH.
Qed.


(** *** Deleting a snapshot *)

Lemma filter_sublist {A} (q : A → bool) (l : list A) : List.filter q l `sublist_of` l.
Proof.
  induction l as [|x l IH]; simpl; [done|].
  destruct (q x); by constructor.
Qed.

(** X6. A confirmed [deleteSnapshot] removes every stored snapshot with the
    id and keeps the others in their order; a restore of that id then
    only shows an error.  The ledger, the prices and the override stay.
    A declined dialog changes nothing. *)
Theorem deleteSnapshot_spec (snapshotId : Z) now st :
  let st' := (deleteSnapshot snapshotId true st).1 in
  (∀ s, s ∈ portfolioSnapshots st' ↔ s ∈ portfolioSnapshots st ∧ snap_id s ≠ snapshotId)
  ∧ portfolioSnapshots st' `sublist_of` portfolioSnapshots st
  ∧ (∀ confirmed, restoreSnapshot snapshotId confirmed now st'
                  = (st', [Notified NoticeSnapshotNotFound KindError]))
  ∧ portfolio st' = portfolio st
  ∧ cryptoData st' = cryptoData st
  ∧ portfolioTotalCost st' = portfolioTotalCost st
  ∧ deleteSnapshot snapshotId false st = (st, []).
Proof.
  cbv zeta. unfold deleteSnapshot. cbn [fst].
  change (portfolioSnapshots (set_portfolioSnapshots ?l _)) with l.
  assert (∀ s : Snapshot N,
            s ∈ List.filter (λ s : Snapshot N, negb (snap_id s =? snapshotId)%Z)
                     (portfolioSnapshots st)
               ↔ s ∈ portfolioSnapshots st ∧ snap_id s ≠ snapshotId) as Hmem.
  { intros s. rewrite !list_elem_of_In, List.filter_In, negb_true_iff, Z.eqb_neq. done. }
  split; [done|]. split; [apply filter_sublist|]. split; [|done].
  intros confirmed. unfold restoreSnapshot, findSnapshot.
  change (portfolioSnapshots (set_portfolioSnapshots ?l _)) with l.
  destruct (List.find _ _) as [s|] eqn:Hfind; [|done].
  apply List.find_some in Hfind as [Hin%list_elem_of_In%Hmem Hid%Z.eqb_eq].
  by destruct Hin.
Qed.

(** *** Loading the latest snapshot of the server *)

(** X7. With no answer, or an empty one, [loadLatestSnapshot] changes nothing
    and returns [false].  Otherwise it returns [true] and the ledger and
    the prices are those of a snapshot of the answer that no other one is
    later than; the session history is replaced by a single entry, so
    that [ensureHistoryEntry] has nothing to add; the override and the
    stored snapshots stay as they were. *)
Theorem loadLatestSnapshot_spec (response : option (list (Snapshot N))) now st :
  (response = None ∨ response = Some [] → loadLatestSnapshot response st = (st, [], false))
  ∧ (∀ first rest, response = Some (first :: rest) →
       ∃ latest,
         latest ∈ first :: rest
         ∧ (∀ s, s ∈ first :: rest → snap_timestamp s ≤ snap_timestamp latest)
         ∧ (loadLatestSnapshot response st).2 = true
         ∧ let st' := (loadLatestSnapshot response st).1.1 in
           portfolio st' = snap_portfolio latest
           ∧ cryptoData st' = snap_cryptoData latest
           ∧ length (portfolioHistory st') = 1%nat
           ∧ ensureHistoryEntry now st' = st'
           ∧ portfolioTotalCost st' = portfolioTotalCost st
           ∧ portfolioSnapshots st' = portfolioSnapshots st).
Proof.
  split.
  - by intros [->| ->].
  - intros first rest ->. exists (foldl laterSnapshot first rest).
    split; [apply laterSnapshot_foldl_in|].
    split; [apply laterSnapshot_foldl_max|].
    split; [done|]. cbv zeta. unfold loadLatestSnapshot. cbn [fst].
    repeat (split; [done|]). split; [|done].
    unfold ensureHistoryEntry.
    change (portfolioHistory (set_portfolioHistory ?h _)) with h.
    by destruct (portfolio _).
Qed.

(** *** The cost override after a reload *)

Lemma step_keepsOverride now (op : Op N) st :
  keepsOverride op = true →
  portfolioTotalCost (step now op st).1 = portfolioTotalCost st.
Proof. destruct op; try done; intros _; handler_cases; reflexivity. Qed.

Lemma run_keepsOverride (ops : list (Z * Op N)) st :
  Forall (λ x, keepsOverride x.2 = true) ops →
  portfolioTotalCost (run ops st) = portfolioTotalCost st.
Proof.
  induction ops as [|[now op] ops IH] using rev_ind; [done|].
  intros [Hops [Hop _]%Forall_cons]%Forall_app.
  rewrite run_snoc, step_keepsOverride by done. by apply IH.
Qed.

Lemma latestTotalCost_foldl (first : Snapshot N) (rest : list (Snapshot N)) :
  Api.latestTotalCost (first :: rest) =
    Some (snap_totalCost (foldl laterSnapshot first rest)).
Proof.
  unfold Api.latestTotalCost. cbn [foldl]. rewrite Z.ltb_irrefl. f_equal. f_equal.
  generalize first. induction rest as [|current rest IH]; intros latest; [done|].
  cbn [foldl]. unfold laterSnapshot at 2.
  destruct (snap_timestamp latest <? snap_timestamp current)%Z; apply IH.
Qed.


(** X9. After [loadLatestTotalCost] the aggregate cost is pinned: when the
    server answers a number it becomes the override, and through every
    later addition, removal, clearing, sorting, price load and snapshot
    the aggregate cost stays that number, whatever the holdings cost;
    only [setTotalCost] and [resetTotalCost] change it.  When the server
    answers [null], or not at all, there is no override and the aggregate
    cost is the sum over the holdings. *)
Theorem loadLatestTotalCost_pins (response : option (option N))
    (ops : list (Z * Op N)) st :
  Forall (λ x, keepsOverride x.2 = true) ops →
  let st' := run ops (loadLatestTotalCost response st) in
  (∀ latest, response = Some (Some latest) → calculateTotalCost st' = latest)
  ∧ (response = None ∨ response = Some None →
       calculateTotalCost st' = sumTotalCost (portfolio st')).
Proof.
  intros Hops. cbv zeta. unfold calculateTotalCost.
  rewrite run_keepsOverride by done. split.
  - by intros latest ->.
  - by intros [->| ->].
Qed.

(** X10. A confirmed [clearPortfolio] empties the ledger and leaves the cost
    override as it is: with an override [c] the empty ledger still has
    the aggregate cost [c] and the profit [0 - c], and neither
    [setTotalCost] nor [resetTotalCost] changes anything until a holding
    is added. *)
Theorem clearPortfolio_keeps_override now st :
  let st' := (clearPortfolio true now st).1 in
  portfolio st' = []
  ∧ portfolioTotalCost st' = portfolioTotalCost st
  ∧ (∀ c, portfolioTotalCost st = Some c →
       calculateTotalCost st' = c ∧ calculateTotalPnl st' = num_zero - c)
  ∧ (∀ newTotalCost now', (setTotalCost newTotalCost now' st').1 = st')
  ∧ (∀ now', (resetTotalCost now' st').1 = st').
Proof.
  cbv zeta. split; [done|]. split; [done|]. split; [|done].
  intros c Hc. unfold calculateTotalPnl, calculateTotalCost.
  change (portfolioTotalCost (clearPortfolio true now st).1) with (portfolioTotalCost st).
  by rewrite Hc.
Qed.

(** *** Transactions *)

Lemma orElse_same (x : N) : orElse x x = x.
Proof. unfold orElse. by destruct (truthy x). Qed.


(** *** Adding, then removing *)

Lemma filter_updateFirst {A} (q : A → bool) (f : A → A) (l : list A) :
  (∀ x, q x = true → q (f x) = true) →
  List.filter (λ x, negb (q x)) (updateFirst q f l) = List.filter (λ x, negb (q x)) l.
Proof.
  intros Hf. induction l as [|x l IH]; [done|]. cbn [updateFirst].
  destruct (q x) eqn:Hx; simpl.
  - by rewrite (Hf x Hx), Hx.
  - by rewrite Hx, IH.
Qed.

Lemma filter_perm {A} (q : A → bool) (l l' : list A) :
  l ≡ₚ l' → List.filter q l ≡ₚ List.filter q l'.
Proof.
  induction 1 as [|x l l' Hl IH|x y l|l l' l'' Hl IH Hl' IH']; simpl.
  - done.
  - destruct (q x); by rewrite IH.
  - destruct (q x), (q y); try done. apply Permutation_swap.
  - by etrans.
Qed.

(** X21. [removeCoin] after [addCoin] of the same [(symbol, note)] pair leaves
    the holdings of all other pairs and nothing else, whether the purchase
    was accepted or refused: what the pair held before the purchase is
    removed along with it, never only the amount that was added.  When
    the pair was new, the ledger is back to the holdings it had. *)
Theorem addCoin_then_removeCoin (sym : string) (amt pp : N) (nt : string)
    (now1 now2 : Z) st :
  let st' := (removeCoin sym nt now2 (addCoin sym amt pp nt now1 st).1).1 in
  portfolio st' ≡ₚ List.filter (λ coin, negb (sameHolding sym nt coin)) (portfolio st)
  ∧ ((sym, nt) ∉ holdingKey <$> portfolio st → portfolio st' ≡ₚ portfolio st).
Proof.
  cbv zeta.
  assert (portfolio (removeCoin sym nt now2 (addCoin sym amt pp nt now1 st).1).1
          ≡ₚ List.filter (λ coin, negb (sameHolding sym nt coin)) (portfolio st)) as Hfilter.
  { rewrite removeCoin_portfolio. unfold addCoin.
    destruct (String.eqb sym "" || negb (truthy amt)); [done|].
    destruct ((amt <=? num_zero) || (pp <? num_zero)); [done|]. cbn [fst].
    rewrite portfolio_updateTotalValue.
    rewrite (filter_perm _ _ _ (portfolio_sortPortfolio _ _ _)).
    cbn [portfolio set_portfolio]. unfold addOrMerge.
    destruct (List.find (sameHolding sym nt) (portfolio st)) eqn:Hfind.
    - rewrite filter_updateFirst; [done|].
      intros coin Hcoin. by rewrite sameHolding_mergeHolding.
    - rewrite List.filter_app. simpl. rewrite sameHolding_newHolding. simpl.
      by rewrite app_nil_r. }
  split; [done|]. intros Hnew%find_none_key.
  by rewrite Hfilter, filter_no_match.
Qed.

(** *** The server's copy of the portfolio *)

Lemma storedPortfolio_Sent (effects : list (Effect N)) (stored : list (Holding N)) :
  storedPortfolio (Sent <$> effects) stored =
    foldl (λ stored' e, match e with SavePortfolio p => p | _ => stored' end)
      stored effects.
Proof.
  unfold storedPortfolio. revert stored.
  induction effects as [|e effects IH]; intros stored; [done|].
  rewrite fmap_cons. cbn [foldl]. rewrite IH. by destruct e.
Qed.

Lemma step_stored now (op : Op N) st (stored : list (Holding N)) :
  stored ≡ₚ portfolio st →
  storedPortfolio (Sent <$> (step now op st).2) stored ≡ₚ portfolio (step now op st).1.
Proof.
  intros Hstored. rewrite storedPortfolio_Sent.
  destruct op; handler_cases; rewrite ?portfolio_updateTotalValue;
    rewrite ?portfolio_sortPortfolio; rewrite ?foldl_app; cbn [foldl];
    done.
Qed.

Lemma pageStep_stored now (op : PageOp N) st (stored : list (Holding N)) :
  stored ≡ₚ portfolio st →
  storedPortfolio (pageStep now op st).2 stored ≡ₚ portfolio (pageStep now op st).1.
Proof.
  intros Hstored. destruct op as [[op|id c|id c|c]|file|response]; simpl.
  - pose proof (step_stored now op st stored Hstored) as Hstep.
    by destruct (step now op st).
  - unfold restoreSnapshot. destruct (findSnapshot id st); [|done].
    destruct c; [|done]. cbn [fst snd storedPortfolio foldl].
    by rewrite portfolio_updateTotalValue, portfolio_sortPortfolio.
  - unfold deleteSnapshot. destruct c; [|done]. cbn [fst snd].
    unfold storedPortfolio, savePortfolioSnapshots. rewrite foldl_app.
    by destruct (portfolioSnapshots _).
  - unfold clearSnapshots. by destruct c.
  - by destruct file.
  - unfold loadLatestSnapshotClicked, loadLatestSnapshot.
    destruct response as [[|first rest]|]; [done| |done].
    cbn [fst snd storedPortfolio foldl].
    by rewrite portfolio_updateTotalValue, portfolio_sortPortfolio.
Qed.


(** *** Time order *)

Lemma filter_StronglySorted {A} (R : A → A → Prop) (q : A → bool) (l : list A) :
  StronglySorted R l → StronglySorted R (List.filter q l).
Proof.
  induction 1 as [|x l Hl IH Hx]; simpl; [constructor|].
  destruct (q x); [|done]. constructor; [done|].
  apply Forall_forall. intros y [Hy _]%list_elem_of_In%List.filter_In.
  rewrite Forall_forall in Hx. by apply Hx, list_elem_of_In.
Qed.

Lemma take_StronglySorted {A} (R : A → A → Prop) (n : nat) (l : list A) :
  StronglySorted R l → StronglySorted R (take n l).
Proof.
  intros Hl. revert n. induction Hl as [|x l Hl IH Hx]; intros [|n]; simpl.
  - constructor.
  - constructor.
  - constructor.
  - constructor; [apply IH|by apply Forall_take].
Qed.

Lemma drop_StronglySorted {A} (R : A → A → Prop) (n : nat) (l : list A) :
  StronglySorted R l → StronglySorted R (drop n l).
Proof.
  intros Hl. revert n. induction Hl as [|x l Hl IH Hx]; intros [|n]; simpl.
  - constructor.
  - constructor.
  - by constructor.
  - apply IH.
Qed.

Lemma snoc_StronglySorted {A} (R : A → A → Prop) (l : list A) (x : A) :
  StronglySorted R l → Forall (λ y, R y x) l → StronglySorted R (l ++ [x]).
Proof.
  induction 1 as [|y l Hl IH Hy]; simpl.
  - intros _. by repeat constructor.
  - intros [Hyx Hlx]%Forall_cons. constructor; [by apply IH|].
    apply Forall_app. split; [done|]. by constructor.
Qed.

Lemma savePortfolioHistory_inTimeOrder (t now : Z) (v c p : N) (pp : PnlPercent N) st :
  (t ≤ now)%Z → inTimeOrder t st → inTimeOrder now (savePortfolioHistory now v c p pp st).
Proof.
  intros Ht (Hs & Hst & Hh & Hht).
  assert (Forall (λ s : Snapshot N, snap_timestamp s ≤ now)%Z (portfolioSnapshots st))
    as Hsnow.
  { eapply Forall_impl; [done|]. intros s Hs'. simpl in Hs'. lia. }
  assert (Forall (λ e : HistoryEntry N, he_timestamp e ≤ now)%Z (portfolioHistory st))
    as Hhnow.
  { eapply Forall_impl; [done|]. intros e He. simpl in He. lia. }
  split; [done|]. split; [done|].
  rewrite savePortfolioHistory_history. cbv zeta.
  set (historyEntry := mkHistoryEntry now v c p pp (portfolio st)).
  assert (StronglySorted (λ a b, he_timestamp a ≤ he_timestamp b)%Z
            (portfolioHistory st ++ [historyEntry])) as Hpushed.
  { by apply snoc_StronglySorted. }
  assert (Forall (λ e : HistoryEntry N, he_timestamp e ≤ now)%Z
            (portfolioHistory st ++ [historyEntry])) as Hpushednow.
  { apply Forall_app. split; [done|]. constructor; [simpl; lia|done]. }
  destruct (_ <? _)%nat; [|done]. unfold sliceLast.
  split; [by apply drop_StronglySorted|by apply Forall_drop].
Qed.

Lemma pushSnapshot_inTimeOrder (t now : Z) (snapshot : Snapshot N) st :
  (t ≤ now)%Z → snap_timestamp snapshot = now →
  inTimeOrder t st → inTimeOrder now (pushSnapshot snapshot st).
Proof.
  intros Ht Hnow (Hs & Hst & Hh & Hht).
  assert (Forall (λ s : Snapshot N, snap_timestamp s ≤ now)%Z (portfolioSnapshots st))
    as Hsnow.
  { eapply Forall_impl; [done|]. intros s Hs'. simpl in Hs'. lia. }
  assert (Forall (λ e : HistoryEntry N, he_timestamp e ≤ now)%Z (portfolioHistory st))
    as Hhnow.
  { eapply Forall_impl; [done|]. intros e He. simpl in He. lia. }
  unfold inTimeOrder. rewrite portfolioSnapshots_pushSnapshot.
  change (portfolioHistory (pushSnapshot snapshot st)) with (portfolioHistory st).
  split; [|split; [|done]].
  - apply take_StronglySorted. constructor; [done|]. by rewrite Hnow.
  - apply Forall_take. constructor; [lia|done].
Qed.

Lemma inTimeOrder_later (t now : Z) st :
  (t ≤ now)%Z → inTimeOrder t st → inTimeOrder now st.
Proof.
  intros Ht (Hs & Hst & Hh & Hht). repeat split; try done.
  - eapply Forall_impl; [done|]. intros s Hs'. simpl in Hs'. lia.
  - eapply Forall_impl; [done|]. intros e He. simpl in He. lia.
Qed.

Lemma inTimeOrder_frame (t : Z) st st' :
  portfolioSnapshots st' = portfolioSnapshots st →
  portfolioHistory st' = portfolioHistory st →
  inTimeOrder t st → inTimeOrder t st'.
Proof. unfold inTimeOrder. by intros -> ->. Qed.

Lemma step_inTimeOrder (t now : Z) (op : Op N) st :
  (t ≤ now)%Z → inTimeOrder t st → inTimeOrder now (step now op st).1.
Proof.
  intros Ht Hst. pose proof (inTimeOrder_later t now st Ht Hst) as Hnow.
  destruct op; handler_cases; try done;
    repeat first
      [ apply (savePortfolioHistory_inTimeOrder now now); [lia|]
      | apply (pushSnapshot_inTimeOrder now now); [lia|reflexivity|]
      | exact Hnow
      | eapply inTimeOrder_frame; [reflexivity|reflexivity|] ].
Qed.

Lemma sessionStep_inTimeOrder (t now : Z) (op : SessionOp N) st :
  (t ≤ now)%Z → inTimeOrder t st → inTimeOrder now (sessionStep now op st).1.
Proof.
  intros Ht Hst. pose proof (inTimeOrder_later t now st Ht Hst) as Hnow.
  destruct op as [op|id c|id c|c].
  - rewrite sessionStep_Handler. by eapply step_inTimeOrder.
  - simpl. unfold restoreSnapshot. destruct (findSnapshot id st); [|done].
    destruct c; [|done]. cbn [fst].
    apply (savePortfolioHistory_inTimeOrder now now); [lia|].
    by eapply inTimeOrder_frame.
  - simpl. unfold deleteSnapshot. destruct c; [|done]. cbn [fst].
    destruct Hnow as (Hs & Hsnow & Hh & Hhnow). split; [|split; [|done]].
    + by apply filter_StronglySorted.
    + by apply filter_Forall.
  - simpl. unfold clearSnapshots. destruct c; [|done]. cbn [fst].
    destruct Hnow as (_ & _ & Hh & Hhnow). split; [constructor|].
    split; [constructor|done].
Qed.

(** X26. With a clock that does not go back, the stored lists stay in time
    order over a whole session: the snapshots newest first and the
    history entries oldest first.  So the first stored snapshot, the one
    that [saveSnapshotsToServer] sends, is never older than another
    stored snapshot. *)
Theorem session_inTimeOrder (t : Z) (ops : list (Z * SessionOp N)) st :
  inTimeOrder t st →
  StronglySorted Z.le (t :: ops.*1) →
  (∃ t', inTimeOrder t' (sessionRun ops st))
  ∧ ∀ first rest s,
      portfolioSnapshots (sessionRun ops st) = first :: rest →
      s ∈ rest → (snap_timestamp s ≤ snap_timestamp first)%Z.
Proof.
  intros Hst Hclock.
  assert (∃ t', inTimeOrder t' (sessionRun ops st)) as [t' Hrun].
  { revert t st Hst Hclock. induction ops as [|[now op] ops IH]; intros t st Hst Hclock.
    - by exists t.
    - rewrite fmap_cons in Hclock. cbn [fst] in Hclock.
      apply StronglySorted_inv in Hclock as [Hops [Hnow _]%Forall_cons].
      apply (IH now); [|done].
      by apply (sessionStep_inTimeOrder t). }
  split; [by exists t'|].
  intros first rest s Hsnapshots Hs. destruct Hrun as (Hsorted & _).
  rewrite Hsnapshots in Hsorted. apply StronglySorted_inv in Hsorted as [_ Hfirst].
  rewrite Forall_forall in Hfirst. by apply Hfirst.
Qed.

End SessionProperties.

(** ** The age of a snapshot *)

(** X12. [getTimeAgo] shows the whole number of elapsed units, in the largest
    unit that has gone by once: under a minute (also for a date ahead of
    the clock) it is "just now"; then 1 to 59 minutes, 1 to 23 hours, 1 to
    29 days, and from 30 days on the number of periods of 30 days.  The
    number is never 0. *)
Theorem getTimeAgo_spec (now date : Z) :
  let elapsed := now - date in
  (elapsed < 60000 ∧ getTimeAgo now date = "just now"%string)
  ∨ (∃ n, 1 ≤ n ≤ 59 ∧ n * 60000 ≤ elapsed < (n + 1) * 60000
          ∧ getTimeAgo now date = String.append (decimal n) "m ago")
  ∨ (∃ n, 1 ≤ n ≤ 23 ∧ n * 3600000 ≤ elapsed < (n + 1) * 3600000
          ∧ getTimeAgo now date = String.append (decimal n) "h ago")
  ∨ (∃ n, 1 ≤ n ≤ 29 ∧ n * 86400000 ≤ elapsed < (n + 1) * 86400000
          ∧ getTimeAgo now date = String.append (decimal n) "d ago")
  ∨ (∃ n, 1 ≤ n ∧ n * 2592000000 ≤ elapsed < (n + 1) * 2592000000
          ∧ getTimeAgo now date = String.append (decimal n) "mo ago").
Proof.
  cbv zeta. unfold getTimeAgo.
  pose proof (Z.div_mod (now - date) 1000 ltac:(lia)) as Hs.
  pose proof (Z.mod_pos_bound (now - date) 1000 ltac:(lia)) as Hsr.
  set (diffInSeconds := (now - date) / 1000) in *.
  assert (∀ unit, 0 < unit →
            diffInSeconds = unit * (diffInSeconds / unit) + diffInSeconds mod unit
            ∧ 0 ≤ diffInSeconds mod unit < unit) as Hunit.
  { intros unit Hpos. split; [by apply Z.div_mod, Z.neq_sym, Z.lt_neq|].
    by apply Z.mod_pos_bound. }
  destruct (Z.ltb_spec diffInSeconds 60); [left; split; [lia|done]|right].
  destruct (Z.ltb_spec diffInSeconds 3600).
  { left. exists (diffInSeconds / 60). destruct (Hunit 60 ltac:(lia)).
    split; [lia|]. split; [lia|done]. }
  right. destruct (Z.ltb_spec diffInSeconds 86400).
  { left. exists (diffInSeconds / 3600). destruct (Hunit 3600 ltac:(lia)).
    split; [lia|]. split; [lia|done]. }
  right. destruct (Z.ltb_spec diffInSeconds 2592000).
  { left. exists (diffInSeconds / 86400). destruct (Hunit 86400 ltac:(lia)).
    split; [lia|]. split; [lia|done]. }
  right. exists (diffInSeconds / 2592000). destruct (Hunit 2592000 ltac:(lia)).
  split; [lia|]. split; [lia|done].
Qed.

(** ** Custom tags *)

Section TagProperties.
Variables trim toLowerCase : string → string.

Lemma removeFirst_fresh (tag : string) (tags : list string) :
  tag ∉ tags → Api.removeFirst tag (tags ++ [tag]) = Some tags.
Proof.
  induction tags as [|t tags IH]; simpl.
  - intros _. by rewrite String.eqb_refl.
  - intros [Hne Hnotin]%not_elem_of_cons.
    destruct (String.eqb_spec t tag) as [->|_]; [done|].
    by rewrite IH.
Qed.

Lemma removeFirst_NoDup (tag : string) (tags tags' : list string) :
  Api.removeFirst tag tags = Some tags' →
  tag ∈ tags ∧ tags' `sublist_of` tags ∧ (NoDup tags → NoDup tags' ∧ tag ∉ tags').
Proof.
  revert tags'. induction tags as [|t tags IH]; intros tags'; simpl; [done|].
  destruct (String.eqb_spec t tag) as [->|Hne].
  - intros [= ->]. split; [apply list_elem_of_here|].
    split; [by constructor|]. by intros [? ?]%NoDup_cons.
  - destruct (Api.removeFirst tag tags) as [rest|]; [|done].
    intros [= <-]. destruct (IH rest eq_refl) as (Hin & Hsub & Hnodup).
    split; [by apply list_elem_of_further|]. split; [by constructor|].
    intros [Ht Htags]%NoDup_cons. destruct (Hnodup Htags) as [Hrest Hnotin].
    split.
    + apply NoDup_cons. split; [|done]. intros Hin'. apply Ht.
      by eapply elem_of_sublist.
    + apply not_elem_of_cons. split; [done|done].
Qed.

Lemma removeFirst_None (tag : string) (tags : list string) :
  Api.removeFirst tag tags = None ↔ tag ∉ tags.
Proof.
  induction tags as [|t tags IH]; simpl.
  - split; [intros _; apply not_elem_of_nil|done].
  - rewrite not_elem_of_cons. destruct (String.eqb_spec t tag) as [->|Hne].
    + split; [done|]. by intros [? _].
    + destruct (Api.removeFirst tag tags); simpl.
      * split; [done|]. intros [_ Hnotin]. by apply IH in Hnotin.
      * split; [|done]. intros _. split; [done|]. by apply IH.
Qed.

(** X13. Over any sequence of requests to the two tag routes the stored tags
    stay free of duplicates and the stored projects are never touched. *)
Theorem tagRoute_NoDup (requests : list Api.TagRequest) (data : Api.ProjectsData) :
  NoDup (default [] (Api.customTags data)) →
  let data' := foldl (λ d request, (Api.tagRoute trim toLowerCase request d).1) data requests in
  NoDup (default [] (Api.customTags data'))
  ∧ Api.projects data' = Api.projects data.
Proof.
  intros Hdata. cbv zeta.
  induction requests as [|request requests [IHtags IHprojects]] using rev_ind; [done|].
  rewrite foldl_snoc. set (d := foldl _ data requests) in *.
  destruct request as [[tag|]|tag]; simpl; [|done|].
  - unfold Api.postTag. destruct (_ || _); [done|].
    destruct (bool_decide _) eqn:Hin; [done|]. simpl. split; [|done].
    apply bool_decide_eq_false in Hin.
    apply NoDup_app. split; [done|]. split; [|apply NoDup_singleton].
    by intros t Ht ->%list_elem_of_singleton.
  - unfold Api.deleteTag. destruct (Api.customTags d) as [tags|] eqn:Htags;
      [|simpl; by rewrite Htags].
    destruct (Api.removeFirst tag tags) as [tags'|] eqn:Hremove;
      [|simpl; by rewrite Htags].
    simpl. split; [|done].
    by apply (removeFirst_NoDup tag tags tags' Hremove).
Qed.

(** X14. A tag is stored trimmed and in lower case, at the end of the list.
    Once it is stored, posting the same text again is refused, and
    deleting the stored form brings the list back to what it was.  A tag
    that is absent, or not a text, or blank is refused; and deleting a
    text that is not stored, as it stands, answers 404 and writes nothing. *)
Theorem postTag_then_deleteTag (tag : string) (data : Api.ProjectsData) :
  let normalizedTag := toLowerCase (trim tag) in
  let tags := default [] (Api.customTags data) in
  (tag = ""%string ∨ String.length (trim tag) = 0%nat →
     Api.postTag trim toLowerCase (Some tag) data = (data, Api.TagInvalid))
  ∧ (tag ≠ ""%string → String.length (trim tag) ≠ 0%nat → normalizedTag ∈ tags →
       Api.postTag trim toLowerCase (Some tag) data = (data, Api.TagExists))
  ∧ (tag ≠ ""%string → String.length (trim tag) ≠ 0%nat → normalizedTag ∉ tags →
       let data' := (Api.postTag trim toLowerCase (Some tag) data).1 in
       Api.customTags data' = Some (tags ++ [normalizedTag])
       ∧ (Api.postTag trim toLowerCase (Some tag) data').2 = Api.TagExists
       ∧ Api.deleteTag normalizedTag data'
           = (Api.mkProjectsData (Api.projects data) (Some tags), Api.TagDeleted tags))
  ∧ (tag ∉ tags → Api.deleteTag tag data = (data, Api.TagNotFound)).
Proof.
  cbv zeta. unfold Api.postTag. split; [|split; [|split]].
  - intros [->|Hblank]; [done|].
    apply Nat.eqb_eq in Hblank. rewrite Hblank. by rewrite orb_true_r.
  - intros Hne%String.eqb_neq Hblank%Nat.eqb_neq Hin. rewrite Hne, Hblank. simpl.
    by rewrite bool_decide_eq_true_2.
  - intros Hne%String.eqb_neq Hblank%Nat.eqb_neq Hnotin. rewrite Hne, Hblank. simpl.
    rewrite bool_decide_eq_false_2 by done. simpl. split; [done|].
    split.
    + rewrite bool_decide_eq_true_2; [done|]. apply elem_of_app. right.
      apply list_elem_of_here.
    + unfold Api.deleteTag. simpl. by rewrite removeFirst_fresh.
  - intros Hnotin. unfold Api.deleteTag.
    destruct (Api.customTags data) as [tags|]; [|done]. simpl in Hnotin.
    apply removeFirst_None in Hnotin. by rewrite Hnotin.
Qed.

End TagProperties.

(** ** The pie chart *)

Section PieProperties.
Context {N : Type} `{JsNumber N}.
Local Open Scope num_scope.

Implicit Types (st : State N) (coin : Holding N).

Lemma filter_partition {A} (q : A → bool) (l : list A) :
  List.filter q l ++ List.filter (λ x, negb (q x)) l ≡ₚ l.
Proof.
  induction l as [|x l IH]; [done|]. simpl. destruct (q x); simpl.
  - by rewrite IH.
  - by rewrite <- Permutation_middle, IH.
Qed.

Lemma objectEntries_perm {V} (obj : list (string * V)) : objectEntries obj ≡ₚ obj.
Proof.
  unfold objectEntries. rewrite stableSort_perm. apply filter_partition.
Qed.

Lemma groupBySymbol_keys st (symbolGroups : list (string * N)) coin :
  (groupBySymbol st symbolGroups coin).*1 =
    if currentValue st coin >? num_zero then
      match Server.property (symbol coin) symbolGroups with
      | Some _ => symbolGroups.*1
      | None => symbolGroups.*1 ++ [symbol coin]
      end
    else symbolGroups.*1.
Proof.
  unfold groupBySymbol. destruct (currentValue st coin >? num_zero); [|done].
  destruct (Server.property (symbol coin) symbolGroups) as [grouped|] eqn:Hgrouped.
  - destruct (truthy grouped); by rewrite assign_keys, Hgrouped.
  - by rewrite assign_keys, Hgrouped.
Qed.

Lemma symbolGroups_keys st (l : list (Holding N)) :
  let symbolGroups := foldl (groupBySymbol st) [] l in
  NoDup symbolGroups.*1
  ∧ ∀ label, label ∈ symbolGroups.*1 ↔
      ∃ coin, coin ∈ l ∧ symbol coin = label ∧ (currentValue st coin >? num_zero) = true.
Proof.
  cbv zeta. induction l as [|x l [IHnodup IHkeys]] using rev_ind.
  - simpl. split; [apply NoDup_nil_2|]. intros label. split.
    + by intros ?%elem_of_nil.
    + by intros (coin & ?%elem_of_nil & _).
  - rewrite foldl_snoc, groupBySymbol_keys.
    set (symbolGroups := foldl (groupBySymbol st) [] l) in *.
    assert (∀ label, (∃ coin, coin ∈ l ++ [x] ∧ symbol coin = label
                              ∧ (currentValue st coin >? num_zero) = true)
                     ↔ label ∈ symbolGroups.*1
                       ∨ (symbol x = label ∧ (currentValue st x >? num_zero) = true))
      as Hsnoc.
    { intros label. rewrite IHkeys. split.
      - intros (coin & [Hin | ->%list_elem_of_singleton]%elem_of_app & Hlabel & Hvalue);
          [left; by exists coin | by right].
      - intros [(coin & Hin & Hlabel & Hvalue)|[Hlabel Hvalue]].
        + exists coin. split; [apply elem_of_app; by left|done].
        + exists x. split; [apply elem_of_app; right; apply list_elem_of_here|done]. }
    destruct (currentValue st x >? num_zero) eqn:Hvalue.
    + destruct (Server.property (symbol x) symbolGroups) as [grouped|] eqn:Hgrouped.
      * split; [done|]. intros label. rewrite Hsnoc. split; [by left|].
        intros [Hin|[<- _]]; [done|].
        destruct (decide (symbol x ∈ symbolGroups.*1)) as [Hin|Hnotin]; [done|].
        apply property_None in Hnotin. congruence.
      * apply property_None in Hgrouped. split.
        -- apply NoDup_app. split; [done|]. split; [|apply NoDup_singleton].
           by intros key Hkey ->%list_elem_of_singleton.
        -- intros label. rewrite Hsnoc, elem_of_app, list_elem_of_singleton.
           split; intros [Hin|Hx]; [by left|right; by split|by left|right; by destruct Hx].
    + split; [done|]. intros label. rewrite Hsnoc. split; [by left|].
      by intros [Hin|[_ ?]].
Qed.


End PieProperties.

(** ** The table and the chart in exact arithmetic *)

Section ExactDisplay.
Local Open Scope Qc_scope.

Implicit Types (coin : Holding Qc) (st : State Qc).

Lemma Qc_ltb_lt (x y : Qc) : Qc_ltb x y = true ↔ x < y.
Proof.
  unfold Qc_ltb. rewrite (Qclt_alt x y). by destruct (x ?= y).
Qed.

Lemma Qc_ltb_ge (x y : Qc) : Qc_ltb x y = false ↔ y <= x.
Proof.
  split.
  - intros Hlt. apply Qcnot_lt_le. intros Hxy%Qc_ltb_lt. congruence.
  - intros Hle. destruct (Qc_ltb x y) eqn:Hlt; [|done].
    apply Qc_ltb_lt in Hlt. by apply Qcle_not_lt in Hle.
Qed.

Lemma Qc_positive_difference (x y : Qc) : 0 < y - x ↔ x < y.
Proof. symmetry. apply Qclt_minus_iff. Qed.

(** The sum of a list, from the left as [reduce] adds it up. *)
Lemma foldl_Qcplus {A} (f : A → Qc) (total : Qc) (l : list A) :
  foldl (λ total' x, total' + f x) total l = total + foldr (λ x rest, f x + rest) 0 l.
Proof.
  revert total. induction l as [|x l IH]; intros total; simpl; [ring|].
  rewrite IH. ring.
Qed.

Lemma foldr_Qcplus_perm {A} (f : A → Qc) (l l' : list A) :
  l ≡ₚ l' → foldr (λ x rest, f x + rest) 0 l = foldr (λ x rest, f x + rest) 0 l'.
Proof.
  induction 1 as [|x l l' Hl IH|x y l|l l' l'' Hl IH Hl' IH']; simpl.
  - done.
  - by rewrite IH.
  - ring.
  - congruence.
Qed.

Lemma foldl_Qcplus_perm {A} (f : A → Qc) (total : Qc) (l l' : list A) :
  l ≡ₚ l' →
  foldl (λ total' x, total' + f x) total l = foldl (λ total' x, total' + f x) total l'.
Proof.
  intros Hl. rewrite !foldl_Qcplus. f_equal. by apply foldr_Qcplus_perm.
Qed.


Lemma Sorted_weaken {A} (R R' : A → A → Prop) (l : list A) :
  (∀ a b, R a b → R' a b) → Sorted R l → Sorted R' l.
Proof.
  intros HR. induction 1 as [|a l Hl IH Hhd]; constructor; [done|].
  destruct Hhd; constructor. by apply HR.
Qed.

Lemma stableSort_keep {A} (after : A → A → bool) (l : list A) :
  (∀ a b, after a b = false) → stableSort after l = l.
Proof.
  intros Hafter. induction l as [|x l IH]; [done|].
  unfold stableSort in *. cbn [foldr]. rewrite IH.
  destruct l as [|y l]; [done|]. simpl. by rewrite Hafter.
Qed.

Lemma Qc_positive_asym (x y : Qc) :
  Qc_ltb 0 (x - y) = true → Qc_ltb 0 (y - x) = false.
Proof.
  intros Hxy. apply Qc_ltb_lt in Hxy. apply (proj1 (Qc_positive_difference y x)) in Hxy.
  apply Qc_ltb_ge. apply Qcnot_lt_le. intros Hyx.
  apply (proj1 (Qc_positive_difference x y)) in Hyx.
  apply Qclt_le_weak in Hxy. exact (Qcle_not_lt _ _ Hxy Hyx).
Qed.

Lemma Qc_not_positive (x y : Qc) : Qc_ltb 0 (x - y) = false → x <= y.
Proof.
  intros Hle. apply Qc_ltb_ge in Hle. apply Qcnot_lt_le. intros Hyx.
  apply (proj2 (Qc_positive_difference y x)) in Hyx. exact (Qcle_not_lt _ _ Hle Hyx).
Qed.


Ltac exact_ops :=
  unfold num_gtb in *;
  cbn [num_ltb num_add num_sub num_mul num_div num_zero Qc_JsNumber] in *.

Lemma assign_total (key : string) (v : Qc) (obj : list (string * Qc)) :
  foldr (λ item rest, item.2 + rest) 0 (Server.assign key v obj)
  = foldr (λ item rest, item.2 + rest) 0 obj
    - default 0 (Server.property key obj) + v.
Proof.
  induction obj as [|[k v'] obj IH]; simpl.
  - ring.
  - destruct (String.eqb k key); simpl; [ring|]. rewrite IH. ring.
Qed.

Lemma symbolGroups_values st (l : list (Holding Qc)) :
  let symbolGroups := foldl (groupBySymbol st) [] l in
  (∀ label,
     default 0 (Server.property label symbolGroups)
     = foldl (λ total coin,
                if String.eqb (symbol coin) label && Qc_ltb 0 (currentValue st coin)
                then total + currentValue st coin else total) 0 l)
  ∧ (∀ label value, Server.property label symbolGroups = Some value → 0 < value)
  ∧ foldr (λ item rest, item.2 + rest) 0 symbolGroups
    = foldl (λ total coin,
               if Qc_ltb 0 (currentValue st coin)
               then total + currentValue st coin else total) 0 l.
Proof.
  cbv zeta. induction l as [|x l (IHvalue & IHpositive & IHtotal)] using rev_ind;
    [done|].
  rewrite !foldl_snoc. set (symbolGroups := foldl (groupBySymbol st) [] l) in *.
  unfold groupBySymbol. exact_ops.
  destruct (Qc_ltb 0 (currentValue st x)) eqn:Hvalue.
  - apply Qc_ltb_lt in Hvalue as Hpos.
    assert (∀ grouped, 0 < grouped → 0 < grouped + currentValue st x) as Hsum.
    { intros grouped Hgrouped. by apply Qc_sum_positive. }
    assert (∃ value,
              (0 < value)
              ∧ value = default 0 (Server.property (symbol x) symbolGroups)
                        + currentValue st x
              ∧ (match Server.property (symbol x) symbolGroups with
                 | Some grouped =>
                     if truthy grouped
                     then Server.assign (symbol x) (grouped + currentValue st x) symbolGroups
                     else Server.assign (symbol x) (currentValue st x) symbolGroups
                 | None => Server.assign (symbol x) (currentValue st x) symbolGroups
                 end) = Server.assign (symbol x) value symbolGroups)
      as (value & Hvaluepos & Hvalueeq & ->).
    { destruct (Server.property (symbol x) symbolGroups) as [grouped|] eqn:Hgrouped.
      - exists (grouped + currentValue st x).
        pose proof (IHpositive _ _ Hgrouped) as Hg. split; [by apply Hsum|].
        split; [done|]. unfold truthy. exact_ops.
        apply Qc_ltb_lt in Hg as ->. by rewrite orb_true_r.
      - exists (currentValue st x). split; [done|]. split; [simpl; ring|done]. }
    split; [|split].
    + intros label. rewrite foldl_snoc, <- IHvalue, Hvalue.
      destruct (String.eqb_spec (symbol x) label) as [<-|Hne]; cbn [andb].
      * rewrite property_assign_eq. exact Hvalueeq.
      * by rewrite property_assign_ne.
    + intros label value'. destruct (decide (symbol x = label)) as [<-|Hne].
      * rewrite property_assign_eq. by intros [= <-].
      * rewrite property_assign_ne by done. apply IHpositive.
    + rewrite assign_total, IHtotal, Hvalueeq. ring.
  - split; [|split; [done|done]].
    intros label. by rewrite foldl_snoc, Hvalue, andb_false_r.
Qed.

Lemma positiveValue_total st (l : list (Holding Qc)) :
  (∀ coin, coin ∈ l → 0 <= currentValue st coin) →
  foldl (λ total coin,
           if Qc_ltb 0 (currentValue st coin)
           then total + currentValue st coin else total) 0 l
  = foldl (λ total coin, total + currentValue st coin) 0 l.
Proof.
  induction l as [|x l IH] using rev_ind; [done|]. intros Hl.
  rewrite !foldl_snoc, IH.
  - destruct (Qc_ltb 0 (currentValue st x)) eqn:Hvalue; [done|].
    apply Qc_ltb_ge in Hvalue.
    assert (currentValue st x = 0) as ->; [|ring].
    apply Qcle_antisym; [done|]. apply Hl, elem_of_app. right. apply list_elem_of_here.
  - intros coin Hcoin. apply Hl, elem_of_app. by left.
Qed.



Lemma Qc_minus_same (x y : Qc) : x = y → x - y = 0.
Proof. intros ->. ring. Qed.

Lemma step_saved_current now (op : Op Qc) st :
  Forall (λ s, snap_totalValue s = calculateTotalValue (step now op st).1
               ∧ snap_totalCost s = calculateTotalCost (step now op st).1
               ∧ snap_totalPnl s = calculateTotalPnl (step now op st).1
               ∧ snap_totalPnlPercent s
                 = PnlNumber (calculateTotalPnlPercent (step now op st).1)
               ∧ findSnapshot (snap_id s) (step now op st).1 = Some s)
    (savedSnapshots (step now op st).2).
Proof.
  destruct op; handler_cases; unfold savedSnapshots; cbn [omap list_omap];
    repeat first [apply Forall_nil_2 | apply Forall_cons_2];
    unfold findSnapshot;
    rewrite ?portfolioSnapshots_updateTotalValue, portfolioSnapshots_pushSnapshot;
    cbn [take List.find snap_id]; rewrite Z.eqb_refl;
    (split; [|split; [|split; [|split]]]); try reflexivity;
    cbn [snap_totalPnlPercent]; unfold calculateTotalPnlPercent;
    match goal with
    | Hc : num_gtb ?c _ = _ |- _ => change (calculateTotalCost _) with c; rewrite Hc
    end;
    reflexivity.
Qed.


End ExactDisplay.

(** ** An export with no snapshot in the range *)

Section ExportEdgeProperties.
Import Server.

Lemma filter_none {A} (q : A → bool) (l : list A) :
  (∀ x, x ∈ l → q x = false) → List.filter q l = [].
Proof.
  induction l as [|x l IH]; [done|]. intros Hl. simpl.
  rewrite (Hl x) by apply list_elem_of_here.
  apply IH. intros y Hy. by apply Hl, list_elem_of_further.
Qed.

(** X16. When no stored snapshot lies within the range (and so when none is
    stored), the export still answers a file: its content is the header
    line alone, and in its name a bound of the query stands as its date
    and a missing bound as [all]. *)
Theorem exportHistory_empty (tzOffset : Z) (q : ExportQuery)
    (allSnapshots : list (Snapshot float)) :
  (∀ s, s ∈ allSnapshots →
     inRange (startDate q) (setHoursEndOfDay tzOffset <$> endDate q) s = false) →
  exportHistory tzOffset q allSnapshots =
    Some (String.append "portfolio-history-"
            (String.append (from_option isoDate "all" (startDate q))
               (String.append "-to-"
                  (String.append
                     (from_option (λ e, isoDate (setHoursEndOfDay tzOffset e)) "all"
                        (endDate q))
                     ".csv"))),
          csvHeader).
Proof.
  intros Hnone.
  assert (dailyData tzOffset q allSnapshots = []) as Hrows.
  { unfold dailyData. rewrite filter_none; [done|].
    intros s Hs. apply Hnone. by rewrite stableSort_perm in Hs. }
  unfold exportHistory. rewrite Hrows.
  destruct (startDate q) as [s|], (endDate q) as [e|];
    cbn [fmap option_fmap option_map from_option];
    try generalize (isoDate (setHoursEndOfDay tzOffset e));
    try generalize (isoDate s); intros; reflexivity.
Qed.

End ExportEdgeProperties.


(** ** Amounts of money *)

Lemma Prim2SF_zero : Prim2SF 0%float = S754_zero false.
Proof. vm_compute. reflexivity. Qed.

Lemma Prim2SF_cent :
  Prim2SF 0x1.47ae147ae147bp-7%float = S754_finite false 5764607523034235 (-59).
Proof. vm_compute. reflexivity. Qed.

(** X24. [formatPrice] chooses the number of decimals by comparing the amount
    itself, not its magnitude: every negative amount, such as a loss in
    the total gain, falls in the tier of the amounts under one cent and is
    written with six decimals.  Both zeros are written [$0.00], and [NaN]
    as [$NaN]. *)
Theorem formatPrice_negative (price : float) :
  (PrimFloat.ltb price 0 = true →
     formatPrice price = String.append "$" <$> float_toFixed 6 price)
  ∧ (PrimFloat.eqb price 0 = true → formatPrice price = Some "$0.00"%string)
  ∧ (Prim2SF price = S754_nan → formatPrice price = Some "$NaN"%string).
Proof.
  unfold formatPrice. rewrite !ltb_spec, !FloatAxioms.eqb_spec.
  rewrite Prim2SF_zero, Prim2SF_cent. split; [|split].
  - destruct (Prim2SF price) as [s|s| |s m e]; simpl; try done.
    + by destruct s.
    + by destruct s.
  - by intros ->.
  - unfold float_toFixed2. by intros ->.
Qed.

(** A loss of 12.5 and a gain of 12.5. *)
Example formatPrice_loss_and_gain :
  formatPrice (-12.5)%float = Some "$-12.500000"%string
  ∧ formatPrice 12.5%float = Some "$12.500"%string.
Proof. split; vm_compute; reflexivity. Qed.
(** ** The properties on small sessions *)

(** A purchase, a snapshot at the instant 2000, its deletion, and a
    restore of the deleted snapshot. *)
Lemma session_caps_witness :
  let ops :=
    [(1000, Handler (OpAddCoin "BTC" 1%float 100%float ""));
     (2000, Handler (OpCreateSnapshot (DescText "Manual Snapshot") []));
     (3000, OpDeleteSnapshot 2000 true);
     (4000, OpRestoreSnapshot 2000 true)] in
  (length (portfolioSnapshots (sessionRun ops (@initialState float))) ≤ 50)%nat
  ∧ (length (portfolioHistory (sessionRun ops (@initialState float))) ≤ 100)%nat.
Proof.
  cbv zeta.
  destruct (session_caps
              [(1000, Handler (OpAddCoin "BTC" 1%float 100%float ""));
               (2000, Handler (OpCreateSnapshot (DescText "Manual Snapshot") []));
               (3000, OpDeleteSnapshot 2000 true);
               (4000, OpRestoreSnapshot 2000 true)] (@initialState float))
    as (Hsnapshots & Hhistory & _); [simpl; lia|simpl; lia|].
  split; [exact Hsnapshots|exact Hhistory].
Defined.


(** Two purchases of one pair, a snapshot, a removal and a restore. *)
Lemma uniqueHoldings_session_witness :
  let ops :=
    [(1000, Handler (OpAddCoin "BTC" 1%float 100%float ""));
     (2000, Handler (OpAddCoin "BTC" 1%float 300%float ""));
     (3000, Handler (OpCreateSnapshot (DescText "Manual Snapshot") []));
     (4000, Handler (OpRemoveCoin "BTC" ""));
     (5000, OpRestoreSnapshot 3000 true)] in
  uniqueHoldings (portfolio (sessionRun ops (@initialState float))).
Proof.
  cbv zeta.
  apply (uniqueHoldings_session
           [(1000, Handler (OpAddCoin "BTC" 1%float 100%float ""));
            (2000, Handler (OpAddCoin "BTC" 1%float 300%float ""));
            (3000, Handler (OpCreateSnapshot (DescText "Manual Snapshot") []));
            (4000, Handler (OpRemoveCoin "BTC" ""));
            (5000, OpRestoreSnapshot 3000 true)] (@initialState float)).
  - apply NoDup_nil_2.
  - apply Forall_nil_2.
Defined.


(** The server answers 50; a purchase of cost 100 follows. *)
Lemma loadLatestTotalCost_pins_witness :
  calculateTotalCost
    (run [(1000, OpAddCoin "BTC" 1%float 100%float "")]
       (loadLatestTotalCost (Some (Some 50%float)) (@initialState float)))
  = 50%float.
Proof.
  apply (loadLatestTotalCost_pins (Some (Some 50%float))
           [(1000, OpAddCoin "BTC" 1%float 100%float "")] (@initialState float)).
  - repeat constructor.
  - reflexivity.
Defined.


(** Three requests about one tag, with texts that are already trimmed
    and in lower case. *)
Lemma tagRoute_NoDup_witness :
  let requests :=
    [Api.PostTag (Some "defi"%string); Api.PostTag (Some "defi"%string);
     Api.DeleteTag "nft"] in
  NoDup (default []
           (Api.customTags
              (foldl (λ d request, (Api.tagRoute (λ s, s) (λ s, s) request d).1)
                 Api.noProjects requests))).
Proof.
  cbv zeta.
  apply (tagRoute_NoDup (λ s, s) (λ s, s)
           [Api.PostTag (Some "defi"%string); Api.PostTag (Some "defi"%string);
            Api.DeleteTag "nft"] Api.noProjects).
  apply NoDup_nil_2.
Defined.


(** The three snapshots of January 2024, asked for the year 2025. *)
Lemma exportHistory_empty_witness :
  Server.exportHistory 0
    (Server.mkExportQuery (Some (Server.utcTime 2025 1 1 0 0))
       (Some (Server.utcTime 2025 12 31 0 0)))
    ExportExample.snapshots
  = Some ("portfolio-history-2025-01-01-to-2025-12-31.csv"%string, "date,portfolio"%string).
Proof.
  rewrite (exportHistory_empty 0
             (Server.mkExportQuery (Some (Server.utcTime 2025 1 1 0 0))
                (Some (Server.utcTime 2025 12 31 0 0)))
             ExportExample.snapshots).
  - vm_compute. reflexivity.
  - intros s Hs. unfold ExportExample.snapshots in Hs.
    apply elem_of_cons in Hs as [->|Hs]; [vm_compute; reflexivity|].
    apply elem_of_cons in Hs as [->|Hs]; [vm_compute; reflexivity|].
    apply list_elem_of_singleton in Hs as ->. vm_compute. reflexivity.
Defined.

(** A purchase at 1000, an override at 2000, a snapshot at 3000 and the
    deletion of the snapshot of the override at 4000. *)
Lemma session_inTimeOrder_witness :
  let ops :=
    [(1000, Handler (OpAddCoin "BTC" 1%float 100%float ""));
     (2000, Handler (OpSetTotalCost 50%float));
     (3000, Handler (OpCreateSnapshot (DescText "Manual Snapshot") []));
     (4000, OpDeleteSnapshot 2000 true)] in
  ∃ t, inTimeOrder t (sessionRun ops (@initialState float)).
Proof.
  cbv zeta.
  destruct (session_inTimeOrder 0
              [(1000, Handler (OpAddCoin "BTC" 1%float 100%float ""));
               (2000, Handler (OpSetTotalCost 50%float));
               (3000, Handler (OpCreateSnapshot (DescText "Manual Snapshot") []));
               (4000, OpDeleteSnapshot 2000 true)] (@initialState float))
    as [Hordered _].
  - unfold inTimeOrder. simpl.
    split; [apply SSorted_nil|]. split; [apply Forall_nil_2|].
    split; [apply SSorted_nil|apply Forall_nil_2].
  - simpl. repeat (apply SSorted_cons; [|repeat (apply Forall_cons_2; [lia|]);
                                          apply Forall_nil_2]).
    apply SSorted_nil.
  - exact Hordered.
Defined.
